(** * The foods resource: routes of [app/routes/food_routes.js]

    A shallow embedding of the five Express route handlers (INDEX, SHOW,
    CREATE, UPDATE, DESTROY) and of the promise chains they build, with the
    collaborators the handlers call (the Mongoose model, the custom error
    helpers, the blank-field middleware, the bearer-token gate) modelled
    next to them. *)

From stdpp Require Import gmap strings list fin_maps.
From Stdlib Require Import ZArith.

#[local] Set Warnings "-register-all".
#[local] Open Scope string_scope.

(** ** JavaScript values *)

(** The values a parsed JSON body can hold, plus [undefined] (what reading a
    missing property gives).  Objects are finite maps from property names to
    values.  Numbers are carried as integers: no handler computes with them.
    A named property assigned to an array (an expando) is invisible to JSON
    serialisation and to the store, so arrays are their elements only. *)
Inductive jsval : Type :=
| JUndefined
| JNull
| JBool (b : bool)
| JNum (n : Z)
| JStr (s : string)
| JArr (l : list jsval)
| JObj (m : gmap string jsval).

(** The empty string, [''] in the source. *)
Definition blank : string := EmptyString.

(** ** Errors and completions *)

Inductive error : Type :=
| TypeError                 (* raw JavaScript TypeError *)
| DocumentNotFoundError     (* thrown by handle404 *)
| OwnershipError            (* thrown by requireOwnership *)
| ValidationError           (* store-level constraint violation *)
| StoreError (msg : string) (* any other rejection of a store call *).

(** How a JavaScript evaluation ends: normally with a value, or abruptly by
    throwing. *)
Inductive completion (A : Type) : Type :=
| Normal (a : A)
| Throw (e : error).
Arguments Normal {A} a.
Arguments Throw {A} e.

(** ** Property access, as the handlers use it

    Only the names [food] and [owner] are ever read, written or deleted;
    neither is a built-in property of a primitive or of an array. *)

(** [v.k] *)
Definition js_get (v : jsval) (k : string) : completion jsval :=
  match v with
  | JUndefined | JNull => Throw TypeError
  | JObj m => Normal (default JUndefined (m !! k))
  | _ => Normal JUndefined
  end.

(** [v.k = x], giving the object after the assignment.  The module is not in
    strict mode: assigning to a property of a primitive is silently dropped. *)
Definition js_set (v : jsval) (k : string) (x : jsval) : completion jsval :=
  match v with
  | JUndefined | JNull => Throw TypeError
  | JObj m => Normal (JObj (<[k := x]> m))
  | _ => Normal v
  end.

(** [delete v.k], giving the object after the deletion. *)
Definition js_delete (v : jsval) (k : string) : completion jsval :=
  match v with
  | JUndefined | JNull => Throw TypeError
  | JObj m => Normal (JObj (delete k m))
  | _ => Normal v
  end.

(** ** Requests, responses, the store *)

(** The parts of [req] the routes touch: [req.params.id], [req.body], the
    bearer token the client sent, and [req.user] (its [id]), which
    [requireToken] sets. *)
Record request : Type := {
  params_id : string;
  body : jsval;
  token : option string;
  user : option string
}.

Record response : Type := {
  status : nat;
  json : option jsval
}.

(** Modelled from the spec: the Resource Store (the Mongoose model
    [../models/food] and the collections behind it are not part of the
    sources).  Food records are kept by id; a record is its fields, the
    [owner] reference among them.  [users] holds the records [populate]
    resolves owner references to, [tokens] the bearer tokens the Auth Gate
    accepts with the user id each belongs to.  Identifiers are assigned by
    the store and unique: [spent] remembers the ids of deleted records so
    that none is assigned twice. *)
Record store : Type := {
  foods : gmap string (gmap string jsval);
  users : gmap string jsval;
  tokens : gmap string string;
  spent : gset string
}.

(** A Mongoose document: the id of a record and the fields loaded for it. *)
Record document : Type := {
  doc_id : string;
  doc_fields : gmap string jsval
}.

(** The calls a handler can make on the store, with their arguments. *)
Inductive store_call : Type :=
| CallFind
| CallFindById (id : string)
| CallCreate (payload : jsval)
| CallUpdateOne (id : string) (payload : jsval)
| CallDeleteOne (id : string).

(** What the store does with a call during one request: serve it ([None])
    or reject it with an error.  This stands for connectivity failures and
    for the validation of the schema in [../models/food]. *)
Definition faults : Type := store_call -> option error.

Definition healthy : faults := fun _ => None.

(** Everything one request/response cycle can read or change: the shared
    [req] object (middleware mutates it in place), the store, the response
    written through [res], the error handed to [next], rejections of
    promises nobody waits for, and the log of store calls issued. *)
Record world : Type := {
  req : request;
  db : store;
  res : option response;
  forwarded : option error;
  unhandled : list error;
  calls : list store_call
}.

Definition set_req (r : request) (w : world) : world :=
  {| req := r; db := db w; res := res w; forwarded := forwarded w;
     unhandled := unhandled w; calls := calls w |}.

Definition set_db (s : store) (w : world) : world :=
  {| req := req w; db := s; res := res w; forwarded := forwarded w;
     unhandled := unhandled w; calls := calls w |}.

Definition set_res (r : response) (w : world) : world :=
  {| req := req w; db := db w; res := Some r; forwarded := forwarded w;
     unhandled := unhandled w; calls := calls w |}.

Definition set_forwarded (e : error) (w : world) : world :=
  {| req := req w; db := db w; res := res w; forwarded := Some e;
     unhandled := unhandled w; calls := calls w |}.

Definition add_unhandled (e : error) (w : world) : world :=
  {| req := req w; db := db w; res := res w; forwarded := forwarded w;
     unhandled := unhandled w ++ [e]; calls := calls w |}.

Definition log_call (c : store_call) (w : world) : world :=
  {| req := req w; db := db w; res := res w; forwarded := forwarded w;
     unhandled := unhandled w; calls := calls w ++ [c] |}.

(** The world in which a request arrives. *)
Definition arrive (r : request) (s : store) : world :=
  {| req := r; db := s; res := None; forwarded := None;
     unhandled := []; calls := [] |}.

(** ** Promises

    A promise is run to its settlement: fulfilled ([Normal]) or rejected
    ([Throw]), with its effects on the world. *)
Definition promise (A : Type) : Type := world -> completion A * world.

Definition resolve {A} (a : A) : promise A := fun w => (Normal a, w).

Definition reject {A} (e : error) : promise A := fun w => (Throw e, w).

(** A synchronous evaluation inside a callback: a throw rejects. *)
Definition lift {A} (c : completion A) : promise A := fun w => (c, w).

(** [p.then(f)] *)
Definition then_ {A B} (p : promise A) (f : A -> promise B) : promise B :=
  fun w =>
    match p w with
    | (Normal a, w') => f a w'
    | (Throw e, w') => (Throw e, w')
    end.

(** [p.catch(h)] *)
Definition catch {A} (p : promise A) (h : error -> promise A) : promise A :=
  fun w =>
    match p w with
    | (Normal a, w') => (Normal a, w')
    | (Throw e, w') => h e w'
    end.

(** A promise that is started and then dropped: its effects happen, the
    callback goes on without waiting, and a rejection reaches nobody.  The
    world a cycle ends in is the one in which the dropped promise has
    settled; the source does not wait for that before it answers. *)
Definition detach {A} (p : promise A) : promise unit :=
  fun w =>
    match p w with
    | (Normal _, w') => (Normal tt, w')
    | (Throw e, w') => (Normal tt, add_unhandled e w')
    end.

Notation "'await' x <- p ; k" := (then_ p (fun x => k))
  (at level 10, x name, p at level 100, k at level 200).
Notation "p '|.then' f" := (then_ p f) (at level 50, left associativity).
Notation "p '|.catch' h" := (catch p h) (at level 50, left associativity).

(** [next(err)] *)
Definition next (e : error) : promise unit :=
  fun w => (Normal tt, set_forwarded e w).

(** [res.status(code).json(b)] *)
Definition res_status_json (code : nat) (b : jsval) : promise unit :=
  fun w => (Normal tt, set_res {| status := code; json := Some b |} w).

(** [res.sendStatus(code)] *)
Definition res_sendStatus (code : nat) : promise unit :=
  fun w => (Normal tt, set_res {| status := code; json := None |} w).

(** [req.params.id], [req.body.food], [req.user.id] *)
Definition req_params_id : promise string :=
  fun w => (Normal (params_id (req w)), w).

Definition req_body_food : promise jsval :=
  fun w => (js_get (body (req w)) "food", w).

Definition req_user_id : promise string :=
  fun w =>
    match user (req w) with
    | Some u => (Normal u, w)
    | None => (Throw TypeError, w)
    end.

(** Writing back [req.body.food] after it was changed in place. *)
Definition put_body_food (food : jsval) : promise unit :=
  fun w =>
    match js_set (body (req w)) "food" food with
    | Normal b =>
        (Normal tt,
         set_req {| params_id := params_id (req w); body := b;
                    token := token (req w); user := user (req w) |} w)
    | Throw e => (Throw e, w)
    end.

(** ** The collaborators of the routes *)

(** The request with [req.user] or [req.body] replaced. *)
Definition with_user (r : request) (u : string) : request :=
  {| params_id := params_id r; body := body r; token := token r;
     user := Some u |}.

Definition with_body (r : request) (b : jsval) : request :=
  {| params_id := params_id r; body := b; token := token r;
     user := user r |}.

(** What an Express layer tells the router when it is done: it called
    [next()], or it ended the cycle (a response, or [next(err)]). *)
Inductive control : Type :=
| NextLayer
| Done.

Definition layer : Type := promise control.

(** Modelled from the spec: the Auth Gate (passport's bearer strategy is
    not part of the sources).  On success the authenticated identity is
    attached to the request; on failure the cycle ends with 401. *)
Definition authenticate (s : store) (r : request) : option string :=
  match token r with
  | Some t => tokens s !! t
  | None => None
  end.

(** Modelled from the spec: the Auth Gate as the middleware the source
    names [requireToken]. *)
Definition requireToken : layer :=
  fun w =>
    match authenticate (db w) (req w) with
    | Some uid => (Normal NextLayer, set_req (with_user (req w) uid) w)
    | None => (Normal Done, set_res {| status := 401; json := None |} w)
    end.

(** Modelled from the spec: what the Field Sanitizer treats as absence,
    the empty string and nothing else. *)
Definition is_blank (v : jsval) : bool :=
  match v with
  | JStr EmptyString => true
  | _ => false
  end.

(** Modelled from the spec: the Field Sanitizer ([../../lib/remove_blank_fields]
    is not part of the sources).  Every key whose value is exactly the empty
    string is removed, recursively through nested mappings; arrays and every
    other value are left as they are. *)
Fixpoint strip_blanks (v : jsval) : jsval :=
  match v with
  | JObj m =>
      JObj (omap (fun x => if is_blank x then None else Some (strip_blanks x)) m)
  | _ => v
  end.

(** Modelled from the spec: what the Field Sanitizer does to the fields of
    one mapping. *)
Definition strip_fields (m : gmap string jsval) : gmap string jsval :=
  omap (fun x => if is_blank x then None else Some (strip_blanks x)) m.

(** Modelled from the spec: the Field Sanitizer as the middleware the
    source imports as [removeBlanks]; it sanitizes [req.body] in place and
    calls [next()]. *)
Definition removeBlanks : layer :=
  fun w =>
    (Normal NextLayer, set_req (with_body (req w) (strip_blanks (body (req w)))) w).

(** Modelled from the spec: the Ownership/404 Helper
    ([../../lib/custom_errors] is not part of the sources). *)
Definition handle404 (record : option document) : promise document :=
  match record with
  | Some d => resolve d
  | None => reject DocumentNotFoundError
  end.

(** Modelled from the spec: the comparison of the Ownership Guard,
    [record.owner !== requesterId]. *)
Definition owned_by (d : document) (uid : string) : bool :=
  match doc_fields d !! "owner" with
  | Some (JStr o) => bool_decide (o = uid)
  | _ => false
  end.

(** Modelled from the spec: [requireOwnership(req, food)] of the
    Ownership/404 Helper; [req] is the one of the world. *)
Definition requireOwnership (food : document) : promise unit :=
  await uid <- req_user_id ;
  if owned_by food uid then resolve tt else reject OwnershipError.

(** Modelled from the spec: the centralized error responder (the
    application's error handler is not part of the sources) maps the kind of
    the error handed to [next] to a status code.  For an ownership mismatch
    the source announces 401 (comment at [requireOwnership]'s import). *)
Definition status_of_error (e : error) : nat :=
  match e with
  | DocumentNotFoundError => 404
  | OwnershipError => 401
  | ValidationError => 422
  | TypeError | StoreError _ => 500
  end.

(** The status code the client receives: the one the handler wrote, or the
    one the error responder gives the error handed to [next]. *)
Definition http_status (w : world) : option nat :=
  match res w with
  | Some r => Some (status r)
  | None => status_of_error <$> forwarded w
  end.

(** Modelled from the spec: [food.toObject()], the record as a plain
    object with its [id]. *)
Definition toObject (d : document) : jsval :=
  JObj (<["id" := JStr (doc_id d)]> (doc_fields d)).

(** Modelled from the spec: population, resolving the reference at [path]
    of a document to the user record it names ([null] when there is none). *)
Definition populate_doc (us : gmap string jsval) (path : string)
    (d : document) : document :=
  match doc_fields d !! path with
  | Some (JStr uid) =>
      {| doc_id := doc_id d;
         doc_fields := <[path := default JNull (us !! uid)]> (doc_fields d) |}
  | _ => d
  end.

(** Modelled from the spec: the reads and writes of the Resource Store. *)
Definition all_documents (s : store) : list document :=
  (fun p => {| doc_id := p.1; doc_fields := p.2 |}) <$> map_to_list (foods s).

Definition insert_food (id : string) (f : gmap string jsval) (s : store) : store :=
  {| foods := <[id := f]> (foods s); users := users s; tokens := tokens s;
     spent := spent s |}.

Definition merge_food (id : string) (m : gmap string jsval) (s : store) : store :=
  {| foods := alter (fun f => m ∪ f) id (foods s); users := users s;
     tokens := tokens s; spent := spent s |}.

Definition remove_food (id : string) (s : store) : store :=
  {| foods := delete id (foods s); users := users s; tokens := tokens s;
     spent := {[id]} ∪ spent s |}.

(** Modelled from the spec: the identifier the Resource Store assigns on
    creation, one that is neither in use nor spent. *)
Definition new_id (s : store) : string := fresh (dom (foods s) ∪ spent s).

Section Routes.

(** How the store treats the calls of the request being served. *)
Variable flt : faults.

(** Modelled from the spec: one call on the Resource Store; it is logged,
    then rejected or served. *)
Definition query {A} (c : store_call) (op : store -> completion A * store)
    : promise A :=
  fun w =>
    let w1 := log_call c w in
    match flt c with
    | Some e => (Throw e, w1)
    | None => let '(r, s') := op (db w1) in (r, set_db s' w1)
    end.

(** Modelled from the spec: [Food.find()], all the records. *)
Definition Food_find : promise (list document) :=
  query CallFind (fun s => (Normal (all_documents s), s)).

(** Modelled from the spec: [Food.findById(id)], the record or [null]. *)
Definition Food_findById (id : string) : promise (option document) :=
  query (CallFindById id)
    (fun s => (Normal ((fun f => {| doc_id := id; doc_fields := f |})
                         <$> foods s !! id), s)).

(** Modelled from the spec: [q.populate(path)] on the result of a query. *)
Definition populate {F} `{FMap F} (path : string)
    (q : promise (F document)) : promise (F document) :=
  await ds <- q ;
  fun w => (Normal (populate_doc (users (db w)) path <$> ds), w).

(** Modelled from the spec: [Food.create(payload)], a new record under a
    new id; a payload that is no mapping violates the store's constraints. *)
Definition Food_create (payload : jsval) : promise document :=
  query (CallCreate payload)
    (fun s =>
       match payload with
       | JObj m =>
           (Normal {| doc_id := new_id s; doc_fields := m |},
            insert_food (new_id s) m s)
       | _ => (Throw ValidationError, s)
       end).

(** Modelled from the spec: [food.updateOne(payload)], a merge-update; the
    fields of the payload are merged into the stored record, fields it does
    not name keep their values. *)
Definition updateOne (food : document) (payload : jsval) : promise unit :=
  query (CallUpdateOne (doc_id food) payload)
    (fun s =>
       match payload with
       | JObj m => (Normal tt, merge_food (doc_id food) m s)
       | _ => (Throw ValidationError, s)
       end).

(** Modelled from the spec: [food.deleteOne()], permanent removal. *)
Definition deleteOne (food : document) : promise unit :=
  query (CallDeleteOne (doc_id food))
    (fun s => (Normal tt, remove_food (doc_id food) s)).

(** ** The five handlers *)

(** INDEX, [GET /foods] *)
Definition index : promise unit :=
  populate "owner" Food_find
  |.then (fun foods => resolve (toObject <$> foods))
  |.then (fun foods => res_status_json 200 (JObj {["foods" := JArr foods]}))
  |.catch next.

(** SHOW, [GET /foods/:id] *)
Definition show : promise unit :=
  await id <- req_params_id ;
  populate "owner" (Food_findById id)
  |.then handle404
  |.then (fun food => res_status_json 200 (JObj {["food" := toObject food]}))
  |.catch next.

(** [req.body.food.owner = req.user.id] *)
Definition assign_owner : promise unit :=
  await food <- req_body_food ;
  await uid <- req_user_id ;
  await food <- lift (js_set food "owner" (JStr uid)) ;
  put_body_food food.

(** CREATE, [POST /foods] *)
Definition create : promise unit :=
  await _ <- assign_owner ;
  await payload <- req_body_food ;
  Food_create payload
  |.then (fun food => res_status_json 201 (JObj {["food" := toObject food]}))
  |.catch next.

(** [delete req.body.food.owner] *)
Definition delete_owner : promise unit :=
  await food <- req_body_food ;
  await food <- lift (js_delete food "owner") ;
  put_body_food food.

(** UPDATE, [PATCH /foods/:id] *)
Definition update : promise unit :=
  await _ <- delete_owner ;
  await id <- req_params_id ;
  Food_findById id
  |.then handle404
  |.then (fun food =>
            await _ <- requireOwnership food ;
            await payload <- req_body_food ;
            updateOne food payload)
  |.then (fun _ => res_sendStatus 204)
  |.catch next.

(** DESTROY, [DELETE /foods/:id].  The promise of [food.deleteOne()] is
    not returned from the callback: the chain does not wait for it. *)
Definition destroy : promise unit :=
  await id <- req_params_id ;
  Food_findById id
  |.then handle404
  |.then (fun food =>
            await _ <- requireOwnership food ;
            detach (deleteOne food))
  |.then (fun _ => res_sendStatus 204)
  |.catch next.

(** ** The router *)

Definition handler (h : promise unit) : layer :=
  await _ <- h ; resolve Done.

Definition route : Type := list layer.

Inductive verb : Type :=
| GET_foods
| GET_foods_id
| POST_foods
| PATCH_foods_id
| DELETE_foods_id.

Definition router (v : verb) : route :=
  match v with
  | GET_foods => [handler index]
  | GET_foods_id => [handler show]
  | POST_foods => [requireToken; handler create]
  | PATCH_foods_id => [requireToken; removeBlanks; handler update]
  | DELETE_foods_id => [requireToken; handler destroy]
  end.

(** The layers of a route run in the order they were registered, each
    one only when the one before it called [next()]. *)
Fixpoint run_route (r : route) : promise unit :=
  match r with
  | [] => resolve tt
  | l :: r' =>
      await c <- l ;
      match c with
      | NextLayer => run_route r'
      | Done => resolve tt
      end
  end.

(** Express hands an exception thrown synchronously by a layer to
    [next], like an error the layer forwards itself. *)
Definition dispatch (r : route) (w : world) : world :=
  match run_route r w with
  | (Normal _, w') => w'
  | (Throw e, w') => set_forwarded e w'
  end.

(** One request/response cycle. *)
Definition serve (v : verb) (r : request) (s : store) : world :=
  dispatch (router v) (arrive r s).

End Routes.

(** The partial payload of a request: the mapping under the [food] key of
    its body. *)
Definition partial_payload (r : request) : option (gmap string jsval) :=
  match body r with
  | JObj b =>
      match b !! "food" with
      | Some (JObj m) => Some m
      | _ => None
      end
  | _ => None
  end.

(** A client request as the API receives it: nothing is authenticated yet. *)
Record api_call : Type := {
  call_faults : faults;
  call_verb : verb;
  call_req : request
}.

Definition serve_call (c : api_call) (s : store) : store :=
  db (serve (call_faults c) (call_verb c) (call_req c) s).

(** A sequence of requests, served one after the other. *)
Definition serve_all (cs : list api_call) (s : store) : store :=
  foldl (fun s c => serve_call c s) s cs.

(** ** Views of a cycle *)

(** The four ways one request changes the store: not at all, by a new
    record under a new id, by merging fields other than [owner] into a
    record, by removing a record. *)
Inductive transition (s : store) : store -> Prop :=
| t_same : transition s s
| t_insert m : transition s (insert_food (new_id s) m s)
| t_merge id m : m !! "owner" = None -> transition s (merge_food id m s)
| t_remove id : transition s (remove_food id s).

(** A record is followed through its life by its id: while it is stored
    its owner is [o]; once it is deleted its id is spent for good. *)
Definition tracked (id : string) (o : option jsval) (s : store) : Prop :=
  (exists f, foods s !! id = Some f /\ f !! "owner" = o)
  \/ (foods s !! id = None /\ id ∈ spent s).

(** The world in which the second layer of a route starts, and the one in
    which the third starts. *)
Definition after_first (r : route) (w : world) : world :=
  (run_route (take 1 r) w).2.

Definition after_second (r : route) (w : world) : world :=
  (run_route (take 2 r) w).2.

(** ** A small store and its clients *)

Definition soup : gmap string jsval :=
  <["title" := JStr "Soup"]> (<["text" := JStr "hot"]> {["owner" := JStr "alice"]}).

Definition kitchen : store :=
  {| foods := {["f1" := soup]};
     users := {["alice" := JObj {["email" := JStr "a@x"]}]};
     tokens := <["ta" := "alice"]> {["tb" := "bob"]};
     spent := ∅ |}.

Definition client (id : string) (b : jsval) (t : option string) : request :=
  {| params_id := id; body := b; token := t; user := None |}.

(** [{food: {title: '', text: 'ok', owner: 'bob'}}] *)
Definition grab : jsval :=
  JObj {["food" := JObj (<["title" := JStr blank]>
                          (<["owner" := JStr "bob"]> {["text" := JStr "ok"]}))]}.

(** [{food: {title: '', text: 'ok'}}] *)
Definition edit : jsval :=
  JObj {["food" := JObj (<["title" := JStr blank]> {["text" := JStr "ok"]})]}.

(** A store that serves every call but [deleteOne]. *)
Definition delete_fails : faults :=
  fun c =>
    match c with
    | CallDeleteOne _ => Some (StoreError "connection lost")
    | _ => None
    end.

(** A store that rejects every lookup by id. *)
Definition lookup_fails : faults :=
  fun c =>
    match c with
    | CallFindById _ => Some (StoreError "timeout")
    | _ => None
    end.

(** A second record, owned by bob, beside the soup. *)
Definition salad : gmap string jsval :=
  <["title" := JStr "Salad"]> {["owner" := JStr "bob"]}.

Definition pantry : store :=
  {| foods := <["f2" := salad]> {["f1" := soup]};
     users := users kitchen;
     tokens := tokens kitchen;
     spent := ∅ |}.

(** Requests of bob and of nobody against alice's soup. *)
Definition raids : list api_call :=
  [ {| call_faults := healthy; call_verb := PATCH_foods_id;
       call_req := client "f1" grab (Some "tb") |};
    {| call_faults := healthy; call_verb := DELETE_foods_id;
       call_req := client "f1" JUndefined None |};
    {| call_faults := healthy; call_verb := DELETE_foods_id;
       call_req := client "f1" JUndefined (Some "tb") |};
    {| call_faults := healthy; call_verb := POST_foods;
       call_req := client blank grab (Some "tb") |} ].

(** * Properties *)

(** ** Running a cycle symbolically *)

Arguments resolve {A} a /.
Arguments reject {A} e /.
Arguments lift {A} c /.
Arguments then_ {A B} p f /.
Arguments catch {A} p h /.
Arguments detach {A} p /.
Arguments next e /.
Arguments res_status_json code b /.
Arguments res_sendStatus code /.
Arguments req_params_id /.
Arguments req_body_food /.
Arguments req_user_id /.
Arguments put_body_food food /.
Arguments assign_owner /.
Arguments delete_owner /.
Arguments requireToken /.
Arguments removeBlanks /.
Arguments handle404 record /.
Arguments requireOwnership food /.
Arguments query flt {A} c op /.
Arguments populate {F _} path q /.
Arguments handler h /.
Arguments index flt /.
Arguments show flt /.
Arguments create flt /.
Arguments update flt /.
Arguments destroy flt /.
Arguments Food_find flt /.
Arguments Food_findById flt id /.
Arguments Food_create flt payload /.
Arguments updateOne flt food payload /.
Arguments deleteOne flt food /.
Arguments owned_by d uid /.
Arguments js_get !v k /.
Arguments js_set !v k x /.
Arguments js_delete !v k /.

(** ** The sanitizer *)

Lemma strip_blanks_obj m : strip_blanks (JObj m) = JObj (strip_fields m).
Proof. reflexivity. Qed.

Lemma strip_fields_lookup m k :
  strip_fields m !! k
  = match m !! k with
    | Some v => if is_blank v then None else Some (strip_blanks v)
    | None => None
    end.
Proof.
  unfold strip_fields. rewrite lookup_omap. by destruct (m !! k).
Qed.

Lemma strip_blanks_other v :
  match v with JObj _ => False | _ => True end -> strip_blanks v = v.
Proof. by destruct v. Qed.

Lemma strip_fields_food b m :
  b !! "food" = Some (JObj m) ->
  strip_fields b !! "food" = Some (JObj (strip_fields m)).
Proof. intros Hb. by rewrite strip_fields_lookup, Hb. Qed.

#[global] Opaque strip_blanks strip_fields.

(** One step of a run: a branch decided by a hypothesis is taken, any
    other branch point that blocks the evaluation is split. *)
Ltac step :=
  match goal with
  | H : ?x = _ |- context [match ?x with _ => _ end] => rewrite H
  | H : ?m !! ?k = _ |- context [?m !! ?k] => rewrite H
  | |- context [match ?x with _ => _ end] =>
      lazymatch x with
      | context [match _ with _ => _ end] => fail
      | _ => destruct x eqn:?
      end
  end.

Ltac run :=
  repeat (simpl; rewrite ?strip_blanks_obj, ?lookup_insert_eq; simpl; try step).

Ltac enter :=
  unfold serve_call, serve, dispatch, router, run_route, arrive.

(** ** Property access *)

(** After [req.body.food.owner = uid], the payload read back from
    [req.body.food], when it is a mapping, has that owner. *)
Lemma owner_assigned b a a0 a1 u m :
  js_get b "food" = Normal a ->
  js_set a "owner" (JStr u) = Normal a0 ->
  js_set b "food" a0 = Normal a1 ->
  js_get a1 "food" = Normal (JObj m) ->
  exists m0, a = JObj m0 /\ m = <["owner" := JStr u]> m0.
Proof.
  destruct b as [| | | | | |mb]; simpl; try discriminate;
    try (intros [= <-]; discriminate).
  intros [= <-] Hset [= <-]. simpl. rewrite lookup_insert_eq. simpl.
  intros [= ->].
  destruct (default JUndefined (mb !! "food")); simpl in Hset;
    try discriminate; simplify_eq; eauto.
Qed.

(** After [delete req.body.food.owner], the payload read back from
    [req.body.food], when it is a mapping, has no owner. *)
Lemma owner_deleted b a a0 a1 m :
  js_get b "food" = Normal a ->
  js_delete a "owner" = Normal a0 ->
  js_set b "food" a0 = Normal a1 ->
  js_get a1 "food" = Normal (JObj m) ->
  exists m0, a = JObj m0 /\ m = delete "owner" m0.
Proof.
  destruct b as [| | | | | |mb]; simpl; try discriminate;
    try (intros [= <-]; discriminate).
  intros [= <-] Hdel [= <-]. simpl. rewrite lookup_insert_eq. simpl.
  intros [= ->].
  destruct (default JUndefined (mb !! "food")); simpl in Hdel;
    try discriminate; simplify_eq; eauto.
Qed.

(** ** What a cycle can do to the store *)

Lemma serve_transition flt v r s : transition s (db (serve flt v r s)).
Proof.
  destruct r as [pid b tok usr].
  destruct v; enter; run; try constructor.
  subst.
  match goal with
  | H1 : js_get ?b _ = Normal ?a, H2 : js_delete ?a _ = Normal ?a0,
    H3 : js_set ?b _ ?a0 = Normal ?a1, H4 : js_get ?a1 _ = Normal (JObj _) |- _ =>
      destruct (owner_deleted _ _ _ _ _ H1 H2 H3 H4) as (m0 & _ & ->)
  end.
  apply lookup_delete_eq.
Qed.

Lemma new_id_fresh s : foods s !! new_id s = None /\ new_id s ∉ spent s.
Proof.
  pose proof (is_fresh (dom (foods s) ∪ spent s)) as Hfresh.
  fold (new_id s) in Hfresh. split.
  - apply not_elem_of_dom. set_solver.
  - set_solver.
Qed.

Section Tracked.

Variables (id : string) (o : option jsval).

Lemma transition_tracked s s' :
  transition s s' -> tracked id o s -> tracked id o s'.
Proof.
  destruct (new_id_fresh s) as [Hnew Hspent].
  intros [|m|id' m Hm|id'] Htr; [done|..]; unfold tracked in *; simpl.
  - destruct Htr as [(f & Hf & Ho)|[Hf Hin]].
    + left. exists f. split; [|done].
      rewrite lookup_insert_ne; [done|congruence].
    + right. split; [|done].
      rewrite lookup_insert_ne; [done|]. intros <-. done.
  - destruct (decide (id' = id)) as [->|Hne].
    + rewrite lookup_alter_eq.
      destruct Htr as [(f & Hf & Ho)|[Hf Hin]]; rewrite Hf; simpl.
      * left. exists (m ∪ f). split; [done|].
        by rewrite lookup_union_r.
      * by right.
    + by rewrite lookup_alter_ne.
  - destruct (decide (id' = id)) as [->|Hne].
    + right. rewrite lookup_delete_eq. split; [done|].
      apply elem_of_union_l, elem_of_singleton. done.
    + rewrite lookup_delete_ne; [|done].
      destruct Htr as [?|[Hf Hin]]; [by left|].
      right. split; [done|]. by apply elem_of_union_r.
Qed.

Lemma serve_all_tracked cs s :
  tracked id o s -> tracked id o (serve_all cs s).
Proof.
  revert s. induction cs as [|c cs IH]; intros s Htr; [done|].
  simpl. apply IH. unfold serve_call.
  eapply transition_tracked; [apply serve_transition|done].
Qed.

End Tracked.

(** A record that appears during [POST /foods] belongs to the caller. *)
Lemma create_owner flt r s u id f :
  authenticate s r = Some u ->
  foods s !! id = None ->
  foods (db (serve flt POST_foods r s)) !! id = Some f ->
  f !! "owner" = Some (JStr u).
Proof.
  destruct r as [pid b tok usr]. intros Hauth Hnone.
  enter; run; try congruence.
  subst.
  match goal with
  | H1 : js_get ?b _ = Normal ?a, H2 : js_set ?a _ _ = Normal ?a0,
    H3 : js_set ?b _ ?a0 = Normal ?a1, H4 : js_get ?a1 _ = Normal (JObj _) |- _ =>
      destruct (owner_assigned _ _ _ _ _ _ H1 H2 H3 H4) as (m0 & _ & ->)
  end.
  destruct (decide (new_id s = id)) as [<-|Hne].
  - rewrite lookup_insert_eq. intros [= <-]. apply lookup_insert_eq.
  - rewrite lookup_insert_ne; [congruence|done].
Qed.

(** ** Ownership *)

(** C1. A record that appears during [POST /foods] has the authenticated
    caller as its owner; through every sequence of requests to the five
    routes, whatever the store does with their calls, a record that is
    still stored has the owner it had; in particular one [PATCH /foods/:id],
    whatever its payload (an [owner] key included), leaves the owner of
    every stored record as it was. *)
Theorem owner_fixed :
  (forall flt r s u id f,
      authenticate s r = Some u ->
      foods s !! id = None ->
      foods (db (serve flt POST_foods r s)) !! id = Some f ->
      f !! "owner" = Some (JStr u))
  /\ (forall cs s id f f',
      foods s !! id = Some f ->
      foods (serve_all cs s) !! id = Some f' ->
      f' !! "owner" = f !! "owner")
  /\ (forall flt r s id f f',
      foods s !! id = Some f ->
      foods (db (serve flt PATCH_foods_id r s)) !! id = Some f' ->
      f' !! "owner" = f !! "owner").
Proof.
  assert (Hall : forall cs s id f f',
             foods s !! id = Some f ->
             foods (serve_all cs s) !! id = Some f' ->
             f' !! "owner" = f !! "owner").
  { intros cs s id f f' Hf Hf'.
    destruct (serve_all_tracked id (f !! "owner") cs s) as [(g & Hg & Ho)|[Hg _]].
    - left. eauto.
    - congruence.
    - congruence. }
  split; [exact create_owner|]. split; [exact Hall|].
  intros flt r s id f f' Hf Hf'.
  apply (Hall [{| call_faults := flt; call_verb := PATCH_foods_id;
                  call_req := r |}] s id f f' Hf Hf').
Qed.

Lemma owner_fixed_witness :
  foods kitchen !! "f1" = Some soup
  /\ foods (db (serve healthy PATCH_foods_id (client "f1" grab (Some "ta")) kitchen))
       !! "f1" = Some (<["text" := JStr "ok"]> soup)
  /\ (<["text" := JStr "ok"]> soup) !! "owner" = soup !! "owner".
Proof.
  split; [vm_compute; reflexivity|]. split; [vm_compute; reflexivity|].
  apply (proj2 (proj2 owner_fixed) healthy (client "f1" grab (Some "ta"))
           kitchen "f1" soup (<["text" := JStr "ok"]> soup));
    vm_compute; reflexivity.
Defined.

(** C2. When [POST /foods] by an authenticated caller answers 201, a record
    was stored under a new id with the caller as its owner, whatever [owner]
    the payload carried, and the body of the response is that record, its
    [food.owner] the caller's id. *)
Theorem create_sets_owner flt r s u :
  authenticate s r = Some u ->
  http_status (serve flt POST_foods r s) = Some 201 ->
  exists id f,
    foods s !! id = None
    /\ foods (db (serve flt POST_foods r s)) !! id = Some f
    /\ f !! "owner" = Some (JStr u)
    /\ res (serve flt POST_foods r s)
       = Some {| status := 201;
                 json := Some (JObj {["food" := JObj (<["id" := JStr id]> f)]}) |}
    /\ (<["id" := JStr id]> f) !! "owner" = Some (JStr u).
Proof.
  destruct r as [pid b tok usr]. intros Hauth.
  unfold http_status. enter. run.
  all: try discriminate.
  all: try (intros [= H];
            match goal with e : error |- _ => destruct e; discriminate end).
  intros _. subst.
  match goal with
  | H1 : js_get ?b _ = Normal ?a, H2 : js_set ?a _ _ = Normal ?a0,
    H3 : js_set ?b _ ?a0 = Normal ?a1, H4 : js_get ?a1 _ = Normal (JObj _) |- _ =>
      destruct (owner_assigned _ _ _ _ _ _ H1 H2 H3 H4) as (m0 & _ & ->)
  end.
  exists (new_id s), (<["owner" := JStr u]> m0).
  split; [apply new_id_fresh|]. split; [apply lookup_insert_eq|].
  split; [apply lookup_insert_eq|]. split; [done|].
  rewrite lookup_insert_ne; [apply lookup_insert_eq|done].
Qed.

Lemma create_sets_owner_witness :
  authenticate kitchen (client blank grab (Some "ta")) = Some "alice"
  /\ http_status (serve healthy POST_foods (client blank grab (Some "ta")) kitchen)
     = Some 201
  /\ exists id f,
      foods kitchen !! id = None
      /\ foods (db (serve healthy POST_foods (client blank grab (Some "ta")) kitchen))
           !! id = Some f
      /\ f !! "owner" = Some (JStr "alice")
      /\ res (serve healthy POST_foods (client blank grab (Some "ta")) kitchen)
         = Some {| status := 201;
                   json := Some (JObj {["food" := JObj (<["id" := JStr id]> f)]}) |}
      /\ (<["id" := JStr id]> f) !! "owner" = Some (JStr "alice").
Proof.
  split; [vm_compute; reflexivity|]. split; [vm_compute; reflexivity|].
  apply (create_sets_owner healthy (client blank grab (Some "ta")) kitchen "alice");
    vm_compute; reflexivity.
Defined.

Lemma partial_payload_body r m :
  partial_payload r = Some m ->
  exists b, body r = JObj b /\ b !! "food" = Some (JObj m).
Proof.
  unfold partial_payload. destruct (body r) as [| | | | | |b]; try discriminate.
  destruct (b !! "food") as [[| | | | | |m']|] eqn:Hb; try discriminate.
  intros [= ->]. eauto.
Qed.

(** The ownership test against a user who is not the owner. *)
Ltac not_owner :=
  match goal with
  | H : bool_decide _ = true |- _ => apply bool_decide_eq_true in H; congruence
  end.

(** C3. On a record owned by A, [PATCH /foods/:id] (with any partial
    payload) and [DELETE /foods/:id] by an authenticated user B other than A
    send no response and hand an error to [next]: the ownership error, or
    the store's own error when it rejects the lookup.  The store is left as
    it was, and the lookup is the only call issued: no update, no delete. *)
Theorem stranger_cannot_mutate flt r s f owner_a user_b :
  foods s !! params_id r = Some f ->
  f !! "owner" = Some (JStr owner_a) ->
  authenticate s r = Some user_b ->
  user_b <> owner_a ->
  (forall m, partial_payload r = Some m ->
     let w := serve flt PATCH_foods_id r s in
     res w = None /\ db w = s /\ calls w = [CallFindById (params_id r)]
     /\ forwarded w
        = Some (default OwnershipError (flt (CallFindById (params_id r)))))
  /\ (let w := serve flt DELETE_foods_id r s in
     res w = None /\ db w = s /\ calls w = [CallFindById (params_id r)]
     /\ forwarded w
        = Some (default OwnershipError (flt (CallFindById (params_id r))))).
Proof.
  intros Hf Ho Hauth Hne. split.
  - intros m (b & Hb & Hfood)%partial_payload_body.
    destruct r as [pid ? tok usr]. simpl in *. subst.
    pose proof (strip_fields_food _ _ Hfood) as Hget.
    enter. run; try not_owner; done.
  - destruct r as [pid b tok usr]. simpl in *.
    enter. run; try not_owner; done.
Qed.

Lemma stranger_cannot_mutate_witness :
  (let w := serve healthy PATCH_foods_id (client "f1" grab (Some "tb")) kitchen in
   res w = None /\ db w = kitchen /\ calls w = [CallFindById "f1"]
   /\ forwarded w = Some OwnershipError)
  /\ (let w := serve healthy DELETE_foods_id (client "f1" grab (Some "tb")) kitchen in
      res w = None /\ db w = kitchen /\ calls w = [CallFindById "f1"]
      /\ forwarded w = Some OwnershipError).
Proof.
  assert (Hf : foods kitchen !! params_id (client "f1" grab (Some "tb")) = Some soup)
    by (vm_compute; reflexivity).
  assert (Ho : soup !! "owner" = Some (JStr "alice")) by (vm_compute; reflexivity).
  assert (Hauth : authenticate kitchen (client "f1" grab (Some "tb")) = Some "bob")
    by (vm_compute; reflexivity).
  assert (Hne : "bob" <> "alice") by discriminate.
  destruct (stranger_cannot_mutate healthy _ _ _ _ _ Hf Ho Hauth Hne) as [Hp Hd].
  split; [|exact Hd].
  apply (Hp (<["title" := JStr blank]>
               (<["owner" := JStr "bob"]> {["text" := JStr "ok"]}))).
  vm_compute; reflexivity.
Defined.

(** In INDEX, SHOW, CREATE and UPDATE every store call is awaited by the
    chain: when the store rejects one, no response is sent and the error
    reaches [next] as it is. *)
Lemma awaited_failures_forwarded flt v r s c e :
  v <> DELETE_foods_id ->
  c ∈ calls (serve flt v r s) ->
  flt c = Some e ->
  res (serve flt v r s) = None /\ forwarded (serve flt v r s) = Some e.
Proof.
  destruct r as [pid b tok usr]. intros Hv.
  destruct v; try done; enter; run.
  all: rewrite ?elem_of_cons, ?elem_of_nil.
  all: try (intros []; done).
  all: intros Hc He; try (destruct Hc as [Hc|Hc]);
    try (destruct Hc as [Hc|Hc]); subst; try congruence; try done.
  all: split; congruence.
Qed.

(** DESTROY forwards the failures it waits for: the lookup, the 404 check
    and the ownership check. *)
Lemma destroy_forwards_lookup_failure flt r s u e :
  authenticate s r = Some u ->
  flt (CallFindById (params_id r)) = Some e ->
  res (serve flt DELETE_foods_id r s) = None
  /\ forwarded (serve flt DELETE_foods_id r s) = Some e.
Proof.
  destruct r as [pid b tok usr]. simpl. intros Hauth He.
  enter. run. done.
Qed.

(** C4. The claim fails for DESTROY: when the store rejects
    [food.deleteOne()] for the owner's [DELETE /foods/f1], nothing reaches
    [next], the rejection is left unhandled, the response is 204 and the
    record is still stored. *)
Theorem destroy_swallows_delete_failure :
  let w := serve delete_fails DELETE_foods_id
             (client "f1" JUndefined (Some "ta")) kitchen in
  res w = Some {| status := 204; json := None |}
  /\ forwarded w = None
  /\ unhandled w = [StoreError "connection lost"]
  /\ calls w = [CallFindById "f1"; CallDeleteOne "f1"]
  /\ foods (db w) !! "f1" = Some soup.
Proof. vm_compute. repeat split; reflexivity. Qed.

(** ** The order of the two sanitizing steps of UPDATE *)

(** C5, as stated, fails: when [removeBlanks] runs on
    [{food: {title: '', owner: 'bob', text: 'ok'}}] the [owner] key is
    still in the payload, and when the handler starts, whose first
    statement deletes that key, the blank [title] is already gone. *)
Lemma update_strips_blanks_first :
  let w0 := arrive (client "f1" grab (Some "ta")) kitchen in
  router healthy PATCH_foods_id
    = [requireToken; removeBlanks; handler (update healthy)]
  /\ partial_payload (req (after_first (router healthy PATCH_foods_id) w0))
     = Some (<["title" := JStr blank]>
               (<["owner" := JStr "bob"]> {["text" := JStr "ok"]}))
  /\ partial_payload (req (after_second (router healthy PATCH_foods_id) w0))
     = Some (<["owner" := JStr "bob"]> {["text" := JStr "ok"]})
  /\ partial_payload (req (serve healthy PATCH_foods_id
                             (client "f1" grab (Some "ta")) kitchen))
     = Some {["text" := JStr "ok"]}.
Proof. vm_compute. repeat split; reflexivity. Qed.

(** Membership in a log that is written out. *)
Ltac in_log H :=
  repeat (apply elem_of_cons in H as [H|H]; [by simplify_eq|]);
  by apply elem_of_nil in H.

(** C5, amended.  In [PATCH /foods/:id] by an authenticated caller, whatever
    the body, the blank fields are stripped first, by the [removeBlanks]
    layer, and the [owner] key second, by the first statement of the
    handler, both before the record is loaded: no store call has been issued
    when either step runs; when the second step throws (there is no [food]
    to strip the key from) the cycle ends there and no lookup is ever
    issued; when it completes, the lookup is the first call, the request
    stays as that step left it, and an update carries the payload as that
    step left it.  For a mapping as payload that is the mapping sanitized in
    both ways. *)
Theorem update_sanitizes_before_load flt r s u :
  authenticate s r = Some u ->
  let w0 := arrive r s in
  let w1 := after_first (router flt PATCH_foods_id) w0 in
  let w2 := after_second (router flt PATCH_foods_id) w0 in
  let w := serve flt PATCH_foods_id r s in
  (req w1 = with_user r u /\ calls w1 = [])
  /\ (req w2 = with_body (with_user r u) (strip_blanks (body r))
      /\ calls w2 = [] /\ db w2 = s)
  /\ w = dispatch [handler (update flt)] w2
  /\ (forall e w3, delete_owner w2 = (Throw e, w3) ->
        w = set_forwarded e w2 /\ calls w = [])
  /\ (forall w3, delete_owner w2 = (Normal tt, w3) ->
        calls w3 = [] /\ db w3 = s /\ req w = req w3
        /\ head (calls w) = Some (CallFindById (params_id r))
        /\ (forall id p, CallUpdateOne id p ∈ calls w ->
              js_get (body (req w3)) "food" = Normal p))
  /\ (forall m, partial_payload r = Some m ->
        partial_payload (req w1) = Some m
        /\ partial_payload (req w2) = Some (strip_fields m)
        /\ exists w3,
            delete_owner w2 = (Normal tt, w3)
            /\ partial_payload (req w3) = Some (delete "owner" (strip_fields m))
            /\ (forall id p, CallUpdateOne id p ∈ calls w ->
                  p = JObj (delete "owner" (strip_fields m)))).
Proof.
  intros Hauth.
  destruct r as [pid b tok usr]. simpl in *.
  unfold after_first, after_second. enter. simpl take.
  split; [run; done|]. split; [run; done|]. split; [run; done|].
  split; [|split].
  - run. all: intros e' w3 [= <- <-]; try done.
  - run. all: intros w3 [= <-]; simpl.
    all: repeat split; try done.
    all: try (intros id p Hin; in_log Hin).
  - intros m (b' & Hb & Hfood)%partial_payload_body. simpl in Hb. subst.
    pose proof (strip_fields_food _ _ Hfood) as Hget.
    unfold partial_payload. run; try not_owner.
    all: split; [done|]; split; [done|]; eexists; split; [reflexivity|].
    all: simpl; rewrite ?lookup_insert_eq; split; [done|].
    all: intros id p Hin; in_log Hin.
Qed.

Lemma update_sanitizes_before_load_witness :
  let r := client "f1" grab (Some "ta") in
  let m := <["title" := JStr blank]>
             (<["owner" := JStr "bob"]> {["text" := JStr "ok"]}) in
  let w2 := after_second (router healthy PATCH_foods_id) (arrive r kitchen) in
  let w := serve healthy PATCH_foods_id r kitchen in
  let r0 := client "f1" (JObj {["title" := JStr "Soup"]}) (Some "ta") in
  let v2 := after_second (router healthy PATCH_foods_id) (arrive r0 kitchen) in
  let v := serve healthy PATCH_foods_id r0 kitchen in
  (partial_payload (req w2) = Some (strip_fields m)
   /\ exists w3,
       delete_owner w2 = (Normal tt, w3)
       /\ partial_payload (req w3) = Some (delete "owner" (strip_fields m))
       /\ (forall id p, CallUpdateOne id p ∈ calls w ->
             p = JObj (delete "owner" (strip_fields m))))
  /\ (delete_owner v2 = (Throw TypeError, v2)
      /\ v = set_forwarded TypeError v2 /\ calls v = []).
Proof.
  intros r m w2 w r0 v2 v.
  assert (Hauth : authenticate kitchen r = Some "alice")
    by (vm_compute; reflexivity).
  assert (Hpay : partial_payload r = Some m) by (vm_compute; reflexivity).
  assert (Hauth0 : authenticate kitchen r0 = Some "alice")
    by (vm_compute; reflexivity).
  assert (Hthrow : delete_owner v2 = (Throw TypeError, v2))
    by (vm_compute; reflexivity).
  split.
  - destruct (update_sanitizes_before_load healthy r kitchen "alice" Hauth)
      as (_ & _ & _ & _ & _ & Hmap).
    destruct (Hmap m Hpay) as (_ & H2 & H3). split; assumption.
  - split; [exact Hthrow|].
    destruct (update_sanitizes_before_load healthy r0 kitchen "alice" Hauth0)
      as (_ & _ & _ & Hthr & _).
    exact (Hthr TypeError v2 Hthrow).
Defined.

Lemma is_blank_spec v : is_blank v = true <-> v = JStr blank.
Proof.
  split; [|by intros ->].
  destruct v as [| | | |[|]| |]; simpl; try discriminate. done.
Qed.

(** C6. For the owner of a stored record, when the store serves the lookup
    and the update, [PATCH /foods/:id] answers 204 and the record becomes
    the merge of the sanitized payload into its fields: a key of the merge
    has the payload's value when the sanitized payload has the key, and the
    value it had otherwise.  The sanitized payload has lost the [owner] key
    and exactly the keys whose value is the empty string; what it keeps is
    sanitized in turn when it is a mapping and unchanged when it is not
    (arrays, numbers, booleans, [null]).  So the payload
    [{title: '', text: 'ok'}] leaves the title and sets the text. *)
Theorem update_merges_sanitized flt r s u f m :
  authenticate s r = Some u ->
  partial_payload r = Some m ->
  foods s !! params_id r = Some f ->
  f !! "owner" = Some (JStr u) ->
  flt (CallFindById (params_id r)) = None ->
  flt (CallUpdateOne (params_id r) (JObj (delete "owner" (strip_fields m)))) = None ->
  let p := delete "owner" (strip_fields m) in
  let w := serve flt PATCH_foods_id r s in
  res w = Some {| status := 204; json := None |}
  /\ calls w = [CallFindById (params_id r); CallUpdateOne (params_id r) (JObj p)]
  /\ foods (db w) !! params_id r = Some (p ∪ f)
  /\ (forall k, (p ∪ f) !! k = match p !! k with Some v => Some v | None => f !! k end)
  /\ (forall k, k <> "owner" ->
        p !! k = match m !! k with
                 | Some v => if is_blank v then None else Some (strip_blanks v)
                 | None => None
                 end)
  /\ (forall v, is_blank v = true <-> v = JStr blank)
  /\ (forall m', strip_blanks (JObj m') = JObj (strip_fields m'))
  /\ (forall v, (forall m', v <> JObj m') -> strip_blanks v = v)
  /\ (m !! "title" = Some (JStr blank) -> m !! "text" = Some (JStr "ok") ->
      (p ∪ f) !! "title" = f !! "title" /\ (p ∪ f) !! "text" = Some (JStr "ok")).
Proof.
  intros Hauth (b & Hb & Hfood)%partial_payload_body Hf Ho Hfind Hupd p w.
  assert (Hp : forall k, k <> "owner" ->
            p !! k = match m !! k with
                     | Some v => if is_blank v then None else Some (strip_blanks v)
                     | None => None
                     end).
  { intros k Hk. unfold p. rewrite lookup_delete_ne; [|done].
    apply strip_fields_lookup. }
  assert (Hmerge : forall k, (p ∪ f) !! k
                     = match p !! k with Some v => Some v | None => f !! k end).
  { intros k. rewrite lookup_union. by destruct (p !! k), (f !! k). }
  split; [|split; [|split; [|split; [exact Hmerge|split; [exact Hp|]]]]].
  - subst w p. destruct r as [pid ? tok usr]. simpl in *. subst.
    pose proof (strip_fields_food _ _ Hfood) as Hget.
    enter. run; [done|].
    match goal with H : bool_decide _ = false |- _ =>
      apply bool_decide_eq_false in H; done end.
  - subst w p. destruct r as [pid ? tok usr]. simpl in *. subst.
    pose proof (strip_fields_food _ _ Hfood) as Hget.
    enter. run; [done|].
    match goal with H : bool_decide _ = false |- _ =>
      apply bool_decide_eq_false in H; done end.
  - subst w p. destruct r as [pid ? tok usr]. simpl in *. subst.
    pose proof (strip_fields_food _ _ Hfood) as Hget.
    enter. run.
    + rewrite lookup_alter_eq, Hf. done.
    + match goal with H : bool_decide _ = false |- _ =>
        apply bool_decide_eq_false in H; done end.
  - split; [exact is_blank_spec|]. split; [exact strip_blanks_obj|].
    split.
    + intros v Hv. apply strip_blanks_other. destruct v; try done.
      by eapply Hv.
    + intros Htitle Htext. rewrite !Hmerge, !Hp, Htitle, Htext by done.
      done.
Qed.

Lemma update_merges_sanitized_witness :
  let r := client "f1" edit (Some "ta") in
  let w := serve healthy PATCH_foods_id r kitchen in
  partial_payload r = Some (<["title" := JStr blank]> {["text" := JStr "ok"]})
  /\ foods kitchen !! "f1" = Some soup
  /\ res w = Some {| status := 204; json := None |}
  /\ foods (db w) !! "f1"
     = Some (delete "owner"
               (strip_fields (<["title" := JStr blank]> {["text" := JStr "ok"]}))
             ∪ soup)
  /\ (delete "owner"
        (strip_fields (<["title" := JStr blank]> {["text" := JStr "ok"]}))
      ∪ soup) !! "title" = soup !! "title"
  /\ (delete "owner"
        (strip_fields (<["title" := JStr blank]> {["text" := JStr "ok"]}))
      ∪ soup) !! "text" = Some (JStr "ok").
Proof.
  intros r w.
  assert (Hpay : partial_payload r
                 = Some (<["title" := JStr blank]> {["text" := JStr "ok"]}))
    by (vm_compute; reflexivity).
  assert (Hf : foods kitchen !! params_id r = Some soup)
    by (vm_compute; reflexivity).
  assert (Hauth : authenticate kitchen r = Some "alice")
    by (vm_compute; reflexivity).
  assert (Ho : soup !! "owner" = Some (JStr "alice"))
    by (vm_compute; reflexivity).
  destruct (update_merges_sanitized healthy r kitchen "alice" soup _
              Hauth Hpay Hf Ho eq_refl eq_refl)
    as (Hres & _ & Hdb & _ & _ & _ & _ & _ & Hex).
  destruct Hex as [Htitle Htext]; [vm_compute; reflexivity..|].
  repeat split; assumption.
Defined.

Lemma populate_doc_id us path d : doc_id (populate_doc us path d) = doc_id d.
Proof.
  unfold populate_doc. by destruct (doc_fields d !! path) as [[]|].
Qed.

Lemma toObject_id d :
  exists food, toObject d = JObj food /\ food !! "id" = Some (JStr (doc_id d)).
Proof. eexists. split; [reflexivity|]. apply lookup_insert_eq. Qed.

(** C7. When the store serves the lookup, [GET /foods/:id] hands the
    not-found error to [next] (status 404, no response of its own) exactly
    when no record is stored under the id, and otherwise answers 200 with a
    body [{food: ...}] whose [food.id] is the requested id. *)
Theorem show_found_or_404 flt r s :
  flt (CallFindById (params_id r)) = None ->
  let w := serve flt GET_foods_id r s in
  (foods s !! params_id r = None <-> forwarded w = Some DocumentNotFoundError)
  /\ (foods s !! params_id r = None -> res w = None /\ http_status w = Some 404)
  /\ (forall f, foods s !! params_id r = Some f ->
        exists food,
          res w = Some {| status := 200;
                          json := Some (JObj {["food" := JObj food]}) |}
          /\ food !! "id" = Some (JStr (params_id r))
          /\ forwarded w = None
          /\ http_status w = Some 200).
Proof.
  destruct r as [pid b tok usr]. simpl. intros Hfind.
  unfold http_status.
  destruct (foods s !! pid) as [f|] eqn:Hf; enter; run.
  - split; [done|]. split; [done|]. intros ? _.
    destruct (toObject_id
                (populate_doc (users s) "owner" {| doc_id := pid; doc_fields := f |}))
      as (food & -> & Hid).
    rewrite populate_doc_id in Hid. eauto.
  - split; [done|]. split; [done|]. intros ? [=].
Qed.

Lemma show_found_or_404_witness :
  let w := serve healthy GET_foods_id (client "f1" JUndefined None) kitchen in
  let w' := serve healthy GET_foods_id (client "f2" JUndefined None) kitchen in
  foods kitchen !! "f1" = Some soup
  /\ (exists food,
        res w = Some {| status := 200;
                        json := Some (JObj {["food" := JObj food]}) |}
        /\ food !! "id" = Some (JStr "f1")
        /\ forwarded w = None
        /\ http_status w = Some 200)
  /\ foods kitchen !! "f2" = None
  /\ res w' = None /\ http_status w' = Some 404.
Proof.
  intros w w'.
  split; [vm_compute; reflexivity|]. split.
  - apply (proj2 (proj2 (show_found_or_404 healthy
                           (client "f1" JUndefined None) kitchen eq_refl)) soup).
    vm_compute; reflexivity.
  - split; [vm_compute; reflexivity|].
    apply (proj1 (proj2 (show_found_or_404 healthy
                           (client "f2" JUndefined None) kitchen eq_refl))).
    vm_compute; reflexivity.
Defined.

(** C8.  The claim fails: the owner's [DELETE /foods/f1] answers 204 while
    the store rejects [food.deleteOne()], the record is still stored, and
    the same request again, now served by a store that rejects nothing,
    answers 204 a second time instead of the not-found error. *)
Theorem destroy_answers_204_twice :
  let r := client "f1" JUndefined (Some "ta") in
  let w1 := serve delete_fails DELETE_foods_id r kitchen in
  let w2 := serve healthy DELETE_foods_id r (db w1) in
  http_status w1 = Some 204
  /\ foods (db w1) !! "f1" = Some soup
  /\ res w2 = Some {| status := 204; json := None |}
  /\ http_status w2 = Some 204
  /\ forwarded w2 = None.
Proof. vm_compute. repeat split; reflexivity. Qed.

(** C9. INDEX and SHOW run no token check and no ownership check: their
    routes hold the handler alone, [req.user] is never set, and two requests
    for the same id that differ in nothing but the token and identity they
    carry get the same response, the same error and leave the same store. *)
Theorem reads_ignore_identity flt s r1 r2 v :
  params_id r1 = params_id r2 ->
  body r1 = body r2 ->
  v = GET_foods \/ v = GET_foods_id ->
  let w1 := serve flt v r1 s in
  let w2 := serve flt v r2 s in
  res w1 = res w2
  /\ forwarded w1 = forwarded w2
  /\ http_status w1 = http_status w2
  /\ db w1 = db w2
  /\ calls w1 = calls w2
  /\ req w1 = r1 /\ req w2 = r2
  /\ (router flt v = [handler (index flt)] \/ router flt v = [handler (show flt)]).
Proof.
  destruct r1 as [pid1 b1 tok1 usr1], r2 as [pid2 b2 tok2 usr2]. simpl.
  intros -> -> [-> | ->]; unfold http_status; enter; run.
  all: repeat split; try done.
  all: (by left) || (by right).
Qed.

Lemma reads_ignore_identity_witness :
  let r1 := client "f1" JUndefined None in
  let r2 := with_user (client "f1" JUndefined (Some "tb")) "bob" in
  let w1 := serve healthy GET_foods_id r1 kitchen in
  let w2 := serve healthy GET_foods_id r2 kitchen in
  res w1 = res w2
  /\ forwarded w1 = forwarded w2
  /\ http_status w1 = http_status w2
  /\ db w1 = db w2
  /\ calls w1 = calls w2
  /\ req w1 = r1 /\ req w2 = r2
  /\ (router healthy GET_foods_id = [handler (index healthy)]
      \/ router healthy GET_foods_id = [handler (show healthy)]).
Proof.
  intros r1 r2.
  apply (reads_ignore_identity healthy kitchen r1 r2 GET_foods_id);
    [reflexivity | reflexivity | right; reflexivity].
Defined.

Lemma undefined_food_sanitized b :
  js_get b "food" = Normal JUndefined ->
  js_get (strip_blanks b) "food" = Normal JUndefined.
Proof.
  destruct b as [| | | | | |m]; try done.
  rewrite strip_blanks_obj. simpl. rewrite strip_fields_lookup.
  destruct (m !! "food") as [v|]; simpl; [|done].
  intros [= ->]. done.
Qed.

(** C10. When the body of an authenticated [POST /foods] or
    [PATCH /foods/:id] has no [food] property, the handler throws a
    TypeError out of the route: no store call was issued, the store is as it
    was, no response was written, and the error is none of the not-found,
    ownership and validation errors. *)
Theorem missing_food_throws flt r s u v :
  authenticate s r = Some u ->
  js_get (body r) "food" = Normal JUndefined ->
  v = POST_foods \/ v = PATCH_foods_id ->
  exists w,
    run_route (router flt v) (arrive r s) = (Throw TypeError, w)
    /\ calls w = [] /\ db w = s /\ res w = None /\ forwarded w = None
    /\ serve flt v r s = set_forwarded TypeError w
    /\ TypeError <> DocumentNotFoundError
    /\ TypeError <> OwnershipError
    /\ TypeError <> ValidationError.
Proof.
  intros Hauth Hfood Hv.
  pose proof (undefined_food_sanitized _ Hfood) as Hfood'.
  destruct r as [pid b tok usr]. simpl in *.
  destruct Hv as [-> | ->]; enter; run; eexists; repeat split; done.
Qed.

Lemma missing_food_throws_witness :
  let r := client "f1" (JObj {["title" := JStr "Soup"]}) (Some "ta") in
  exists w,
    run_route (router healthy PATCH_foods_id) (arrive r kitchen)
    = (Throw TypeError, w)
    /\ calls w = [] /\ db w = kitchen /\ res w = None /\ forwarded w = None
    /\ serve healthy PATCH_foods_id r kitchen = set_forwarded TypeError w
    /\ TypeError <> DocumentNotFoundError
    /\ TypeError <> OwnershipError
    /\ TypeError <> ValidationError.
Proof.
  intros r.
  apply (missing_food_throws healthy r kitchen "alice" PATCH_foods_id);
    [vm_compute; reflexivity | vm_compute; reflexivity | right; reflexivity].
Defined.

(** ** How every cycle ends *)

(** X1. Every cycle of every route ends in exactly one of two ways: a
    response was written and nothing was handed to [next], or an error was
    handed to [next] and no response was written. *)
Theorem exactly_one_outcome flt v r s :
  let w := serve flt v r s in
  (is_Some (res w) /\ forwarded w = None)
  \/ (res w = None /\ is_Some (forwarded w)).
Proof.
  destruct r as [pid b tok usr].
  destruct v; enter; run; eauto.
Qed.

(** X2. On every route, a cycle that hands an error to [next] has left the
    store as it was, has written no response and has left no rejection
    unhandled. *)
Theorem error_leaves_store flt v r s e :
  forwarded (serve flt v r s) = Some e ->
  db (serve flt v r s) = s
  /\ res (serve flt v r s) = None
  /\ unhandled (serve flt v r s) = [].
Proof.
  destruct r as [pid b tok usr].
  destruct v; enter; run; try done.
Qed.

Lemma error_leaves_store_witness :
  let w := serve healthy GET_foods_id (client "f2" JUndefined None) kitchen in
  forwarded w = Some DocumentNotFoundError
  /\ db w = kitchen /\ res w = None /\ unhandled w = [].
Proof.
  intros w. split; [vm_compute; reflexivity|].
  apply (error_leaves_store healthy GET_foods_id (client "f2" JUndefined None)
           kitchen DocumentNotFoundError).
  vm_compute; reflexivity.
Defined.

(** X3. On the three routes registered with [requireToken], a request whose
    token is not accepted gets 401 and nothing else happens: the handler
    does not run, the body is not even sanitized, no store call is issued. *)
Theorem unauthenticated_rejected flt v r s :
  authenticate s r = None ->
  v = POST_foods \/ v = PATCH_foods_id \/ v = DELETE_foods_id ->
  serve flt v r s = set_res {| status := 401; json := None |} (arrive r s).
Proof.
  destruct r as [pid b tok usr].
  intros Hauth [-> | [-> | ->]]; enter; run; done.
Qed.

Lemma unauthenticated_rejected_witness :
  authenticate kitchen (client "f1" grab (Some "stolen")) = None
  /\ serve healthy PATCH_foods_id (client "f1" grab (Some "stolen")) kitchen
     = set_res {| status := 401; json := None |}
         (arrive (client "f1" grab (Some "stolen")) kitchen).
Proof.
  split; [vm_compute; reflexivity|].
  apply (unauthenticated_rejected healthy PATCH_foods_id
           (client "f1" grab (Some "stolen")) kitchen);
    [vm_compute; reflexivity | right; left; reflexivity].
Defined.

(** X4. The responses the routes write: the two GET routes answer 200 with
    a body, POST answers 201 with a body or 401 without, PATCH and DELETE
    never send a body and answer 204 or 401. *)
Theorem response_shapes flt v r s resp :
  res (serve flt v r s) = Some resp ->
  match v with
  | GET_foods | GET_foods_id => status resp = 200 /\ is_Some (json resp)
  | POST_foods =>
      (status resp = 201 /\ is_Some (json resp))
      \/ (status resp = 401 /\ json resp = None)
  | PATCH_foods_id | DELETE_foods_id =>
      json resp = None /\ (status resp = 204 \/ status resp = 401)
  end.
Proof.
  destruct r as [pid b tok usr].
  destruct v; enter; run; intros [= <-]; simpl; eauto.
Qed.

Lemma response_shapes_witness :
  let resp := {| status := 204; json := None |} in
  res (serve healthy PATCH_foods_id (client "f1" edit (Some "ta")) kitchen)
  = Some resp
  /\ json resp = None /\ (status resp = 204 \/ status resp = 401).
Proof.
  intros resp. split; [vm_compute; reflexivity|].
  apply (response_shapes healthy PATCH_foods_id (client "f1" edit (Some "ta"))
           kitchen resp).
  vm_compute; reflexivity.
Defined.

(** X5. When the store rejects a call other than the [deleteOne] of
    DESTROY, on any route, the chain stops there: the rejected call is the
    last one issued, its error reaches [next] as it is, no response is
    written and the store is as it was. *)
Theorem rejected_call_ends_cycle flt v r s c e :
  c ∈ calls (serve flt v r s) ->
  flt c = Some e ->
  (forall id, c <> CallDeleteOne id) ->
  res (serve flt v r s) = None
  /\ forwarded (serve flt v r s) = Some e
  /\ db (serve flt v r s) = s
  /\ last (calls (serve flt v r s)) = Some c.
Proof.
  destruct r as [pid b tok usr].
  destruct v; enter; run.
  all: rewrite ?elem_of_cons, ?elem_of_nil.
  all: try (intros []; done).
  all: intros Hc He Hnd; try (destruct Hc as [Hc|Hc]);
    try (destruct Hc as [Hc|Hc]); subst; try congruence; try done.
  all: try (by destruct (Hnd _)).
  all: repeat split; congruence.
Qed.

Lemma rejected_call_ends_cycle_witness :
  let w := serve lookup_fails PATCH_foods_id (client "f1" edit (Some "ta")) kitchen in
  res w = None
  /\ forwarded w = Some (StoreError "timeout")
  /\ db w = kitchen
  /\ last (calls w) = Some (CallFindById "f1").
Proof.
  apply (rejected_call_ends_cycle lookup_fails PATCH_foods_id
           (client "f1" edit (Some "ta")) kitchen (CallFindById "f1")
           (StoreError "timeout")).
  - apply list_elem_of_In. vm_compute. left. reflexivity.
  - reflexivity.
  - intros id. discriminate.
Defined.

(** ** The reading routes *)

(** X6. When the store serves the query, [GET /foods] answers 200 with an
    array that has one entry per stored record, the ids of its entries being
    exactly the ids in the store; on an empty store the array is empty.  The
    store is left as it was and the query is the only call. *)
Theorem index_lists_all flt r s :
  flt CallFind = None ->
  let w := serve flt GET_foods r s in
  exists l,
    res w = Some {| status := 200; json := Some (JObj {["foods" := JArr l]}) |}
    /\ length l = size (foods s)
    /\ (forall id, is_Some (foods s !! id)
          <-> exists food, JObj food ∈ l /\ food !! "id" = Some (JStr id))
    /\ (foods s = ∅ -> l = [])
    /\ forwarded w = None /\ db w = s /\ calls w = [CallFind].
Proof.
  destruct r as [pid b tok usr]. intros Hfind. enter. run.
  eexists. split; [reflexivity|]. split; [|split; [|split]].
  - unfold all_documents. by rewrite !length_fmap, length_map_to_list.
  - intros id. split.
    + intros [f Hf]. eexists. split.
      * apply list_elem_of_fmap. eexists. split; [reflexivity|].
        apply list_elem_of_fmap. eexists. split; [reflexivity|].
        apply list_elem_of_fmap. exists (id, f). split; [reflexivity|].
        by apply elem_of_map_to_list.
      * rewrite populate_doc_id. apply lookup_insert_eq.
    + intros (food & Hin & Hid).
      apply list_elem_of_fmap in Hin as (d & Hd & Hin).
      apply list_elem_of_fmap in Hin as (d' & -> & Hin).
      apply list_elem_of_fmap in Hin as ([i f] & -> & Hin).
      apply elem_of_map_to_list in Hin.
      injection Hd as ->. rewrite populate_doc_id, lookup_insert_eq in Hid.
      simpl in Hid. injection Hid as <-. eauto.
  - intros Hempty. unfold all_documents. by rewrite Hempty, map_to_list_empty.
  - done.
Qed.

Lemma index_lists_all_witness :
  let w := serve healthy GET_foods (client blank JUndefined None) pantry in
  exists l,
    res w = Some {| status := 200; json := Some (JObj {["foods" := JArr l]}) |}
    /\ length l = size (foods pantry)
    /\ (forall id, is_Some (foods pantry !! id)
          <-> exists food, JObj food ∈ l /\ food !! "id" = Some (JStr id))
    /\ (foods pantry = ∅ -> l = [])
    /\ forwarded w = None /\ db w = pantry /\ calls w = [CallFind].
Proof.
  apply (index_lists_all healthy (client blank JUndefined None) pantry).
  reflexivity.
Defined.

(** X7. The two GET routes read nothing of the request but the id: they
    issue one read call and no other, leave the store as it was, and answer
    two requests for the same id alike, whatever their bodies, tokens and
    identities. *)
Theorem reads_are_pure flt v r1 r2 s :
  v = GET_foods \/ v = GET_foods_id ->
  params_id r1 = params_id r2 ->
  let w1 := serve flt v r1 s in
  let w2 := serve flt v r2 s in
  db w1 = s
  /\ unhandled w1 = []
  /\ calls w1 = [match v with
                  | GET_foods => CallFind
                  | _ => CallFindById (params_id r1)
                  end]
  /\ res w1 = res w2
  /\ forwarded w1 = forwarded w2.
Proof.
  destruct r1 as [pid1 b1 tok1 usr1], r2 as [pid2 b2 tok2 usr2]. simpl.
  intros [-> | ->] ->; enter; run; done.
Qed.

Lemma reads_are_pure_witness :
  let w1 := serve healthy GET_foods_id (client "f1" grab (Some "tb")) kitchen in
  let w2 := serve healthy GET_foods_id (client "f1" JNull None) kitchen in
  db w1 = kitchen
  /\ unhandled w1 = []
  /\ calls w1 = [CallFindById "f1"]
  /\ res w1 = res w2
  /\ forwarded w1 = forwarded w2.
Proof.
  apply (reads_are_pure healthy GET_foods_id (client "f1" grab (Some "tb"))
           (client "f1" JNull None) kitchen);
    [right; reflexivity | reflexivity].
Defined.

(** ** The writing routes *)

(** X8. [DELETE /foods/:id] never reads the body: two requests with the
    same id and token end alike in every respect. *)
Theorem destroy_ignores_body flt r1 r2 s :
  params_id r1 = params_id r2 ->
  token r1 = token r2 ->
  let w1 := serve flt DELETE_foods_id r1 s in
  let w2 := serve flt DELETE_foods_id r2 s in
  res w1 = res w2 /\ forwarded w1 = forwarded w2 /\ db w1 = db w2
  /\ calls w1 = calls w2 /\ unhandled w1 = unhandled w2.
Proof.
  destruct r1 as [pid1 b1 tok1 usr1], r2 as [pid2 b2 tok2 usr2]. simpl.
  intros -> ->.
  assert (Hauth : authenticate s
            {| params_id := pid2; body := b1; token := tok2; user := usr1 |}
          = authenticate s
            {| params_id := pid2; body := b2; token := tok2; user := usr2 |})
    by reflexivity.
  destruct (authenticate s
              {| params_id := pid2; body := b2; token := tok2; user := usr2 |})
    eqn:Hauth2.
  all: enter; run; done.
Qed.

Lemma destroy_ignores_body_witness :
  let w1 := serve healthy DELETE_foods_id (client "f1" grab (Some "ta")) kitchen in
  let w2 := serve healthy DELETE_foods_id (client "f1" JUndefined (Some "ta")) kitchen in
  res w1 = res w2 /\ forwarded w1 = forwarded w2 /\ db w1 = db w2
  /\ calls w1 = calls w2 /\ unhandled w1 = unhandled w2.
Proof.
  apply (destroy_ignores_body healthy (client "f1" grab (Some "ta"))
           (client "f1" JUndefined (Some "ta")) kitchen);
    reflexivity.
Defined.

(** X9. [POST /foods] with a mapping as payload, when the store serves the
    create call, stores the payload as it came, with the owner overwritten
    and nothing else touched (no blank field is stripped on this route),
    under an id that was not in use, answers 201 with that record, issues
    the create call alone and leaves every other record as it was. *)
Theorem create_stores_payload flt r s u m :
  authenticate s r = Some u ->
  partial_payload r = Some m ->
  flt (CallCreate (JObj (<["owner" := JStr u]> m))) = None ->
  let w := serve flt POST_foods r s in
  let f := <["owner" := JStr u]> m in
  res w = Some {| status := 201;
                  json := Some (JObj {["food" := JObj (<["id" := JStr (new_id s)]> f)]}) |}
  /\ forwarded w = None
  /\ calls w = [CallCreate (JObj f)]
  /\ foods s !! new_id s = None
  /\ foods (db w) = <[new_id s := f]> (foods s)
  /\ (forall k, k <> "owner" -> f !! k = m !! k)
  /\ (forall id g, foods s !! id = Some g -> foods (db w) !! id = Some g).
Proof.
  intros Hauth (b & Hb & Hfood)%partial_payload_body Hcreate.
  destruct r as [pid ? tok usr]. simpl in *. subst.
  destruct (new_id_fresh s) as [Hnew _].
  enter. run. repeat split; try done.
  - intros k Hk. by rewrite lookup_insert_ne.
  - intros id g Hg. rewrite lookup_insert_ne; [done|]. congruence.
Qed.

Lemma create_stores_payload_witness :
  let r := client blank edit (Some "tb") in
  let m := <["title" := JStr blank]> {["text" := JStr "ok"]} in
  let w := serve healthy POST_foods r kitchen in
  let f := <["owner" := JStr "bob"]> m in
  res w = Some {| status := 201;
                  json := Some (JObj {["food" := JObj (<["id" := JStr (new_id kitchen)]> f)]}) |}
  /\ forwarded w = None
  /\ calls w = [CallCreate (JObj f)]
  /\ foods kitchen !! new_id kitchen = None
  /\ foods (db w) = <[new_id kitchen := f]> (foods kitchen)
  /\ (forall k, k <> "owner" -> f !! k = m !! k)
  /\ (forall id g, foods kitchen !! id = Some g -> foods (db w) !! id = Some g).
Proof.
  apply (create_stores_payload healthy (client blank edit (Some "tb")) kitchen "bob");
    vm_compute; reflexivity.
Defined.

(** X10. For an authenticated caller and an id under which nothing is
    stored, when the store serves the lookup, DELETE and PATCH (with a
    mapping as payload) hand the not-found error to [next] before any
    ownership check: no response, the lookup is the only call, the store is
    as it was. *)
Theorem missing_record_404 flt r s u v :
  authenticate s r = Some u ->
  foods s !! params_id r = None ->
  flt (CallFindById (params_id r)) = None ->
  v = DELETE_foods_id \/ (v = PATCH_foods_id /\ is_Some (partial_payload r)) ->
  let w := serve flt v r s in
  res w = None /\ forwarded w = Some DocumentNotFoundError
  /\ db w = s /\ calls w = [CallFindById (params_id r)].
Proof.
  intros Hauth Hnone Hfind [-> | [-> [m (b & Hb & Hfood)%partial_payload_body]]].
  - destruct r as [pid b tok usr]. simpl in *. enter. run. done.
  - destruct r as [pid ? tok usr]. simpl in *. subst.
    pose proof (strip_fields_food _ _ Hfood) as Hget.
    enter. run. done.
Qed.

Lemma missing_record_404_witness :
  let w := serve healthy PATCH_foods_id (client "f9" edit (Some "tb")) kitchen in
  res w = None /\ forwarded w = Some DocumentNotFoundError
  /\ db w = kitchen /\ calls w = [CallFindById "f9"].
Proof.
  apply (missing_record_404 healthy (client "f9" edit (Some "tb")) kitchen "bob"
           PATCH_foods_id);
    [vm_compute; reflexivity | vm_compute; reflexivity | reflexivity |].
  right. split; [reflexivity|]. vm_compute. eexists. reflexivity.
Defined.

(** X11. For the owner of a stored record, once the store serves the
    lookup, [DELETE /foods/:id] answers 204 and hands nothing to [next]
    whatever becomes of the delete: the delete call is issued after the
    lookup; when the store serves it the record is removed, when the store
    rejects it the record stays and the rejection is left unhandled. *)
Theorem destroy_by_owner flt r s u f :
  authenticate s r = Some u ->
  foods s !! params_id r = Some f ->
  f !! "owner" = Some (JStr u) ->
  flt (CallFindById (params_id r)) = None ->
  let w := serve flt DELETE_foods_id r s in
  res w = Some {| status := 204; json := None |}
  /\ forwarded w = None
  /\ calls w = [CallFindById (params_id r); CallDeleteOne (params_id r)]
  /\ unhandled w = match flt (CallDeleteOne (params_id r)) with
                   | Some e => [e]
                   | None => []
                   end
  /\ foods (db w) = match flt (CallDeleteOne (params_id r)) with
                    | Some _ => foods s
                    | None => delete (params_id r) (foods s)
                    end.
Proof.
  intros Hauth Hf Ho Hfind.
  destruct r as [pid b tok usr]. simpl in *.
  enter. run; try done.
  all: match goal with H : bool_decide _ = false |- _ =>
         apply bool_decide_eq_false in H; done end.
Qed.

Lemma destroy_by_owner_witness :
  let w := serve healthy DELETE_foods_id (client "f2" JUndefined (Some "tb")) pantry in
  res w = Some {| status := 204; json := None |}
  /\ forwarded w = None
  /\ calls w = [CallFindById "f2"; CallDeleteOne "f2"]
  /\ unhandled w = []
  /\ foods (db w) = delete "f2" (foods pantry).
Proof.
  apply (destroy_by_owner healthy (client "f2" JUndefined (Some "tb")) pantry
           "bob" salad);
    vm_compute; reflexivity.
Defined.

(** X12. A cycle changes no record but the one its id names: the GET routes
    and POST leave every stored record as it was, PATCH and DELETE leave
    every record under another id as it was; and no route changes the users
    or the tokens. *)
Theorem others_untouched flt v r s id f :
  foods s !! id = Some f ->
  id <> params_id r \/ v = GET_foods \/ v = GET_foods_id \/ v = POST_foods ->
  let w := serve flt v r s in
  foods (db w) !! id = Some f
  /\ users (db w) = users s
  /\ tokens (db w) = tokens s.
Proof.
  intros Hf Hv. destruct (new_id_fresh s) as [Hnew _].
  assert (Hid : new_id s <> id) by congruence.
  destruct r as [pid b tok usr]. simpl in *.
  destruct (foods s !! pid) as [g|] eqn:Hg.
  all: destruct v; enter; run; try done.
  all: try (rewrite lookup_insert_ne by done; done).
  all: destruct Hv as [Hv|[Hv|[Hv|Hv]]]; try discriminate.
  all: try (rewrite lookup_alter_ne by done; done).
  all: try (rewrite lookup_delete_ne by done; done).
Qed.

Lemma others_untouched_witness :
  let w := serve healthy DELETE_foods_id (client "f2" JUndefined (Some "tb")) pantry in
  foods pantry !! "f1" = Some soup
  /\ foods (db w) !! "f1" = Some soup
  /\ users (db w) = users pantry
  /\ tokens (db w) = tokens pantry.
Proof.
  split; [vm_compute; reflexivity|].
  apply (others_untouched healthy DELETE_foods_id
           (client "f2" JUndefined (Some "tb")) pantry "f1" soup);
    [vm_compute; reflexivity | left; discriminate].
Defined.

(** ** How the routes compose *)

Lemma create_run flt r s u m :
  authenticate s r = Some u ->
  partial_payload r = Some m ->
  flt (CallCreate (JObj (<["owner" := JStr u]> m))) = None ->
  db (serve flt POST_foods r s) = insert_food (new_id s) (<["owner" := JStr u]> m) s.
Proof.
  intros Hauth (b & Hb & Hfood)%partial_payload_body Hcreate.
  destruct r as [pid ? tok usr]. simpl in *. subst.
  enter. run. done.
Qed.

Lemma update_run flt r s u f m :
  authenticate s r = Some u ->
  partial_payload r = Some m ->
  foods s !! params_id r = Some f ->
  f !! "owner" = Some (JStr u) ->
  flt (CallFindById (params_id r)) = None ->
  flt (CallUpdateOne (params_id r) (JObj (delete "owner" (strip_fields m)))) = None ->
  res (serve flt PATCH_foods_id r s) = Some {| status := 204; json := None |}
  /\ db (serve flt PATCH_foods_id r s)
     = merge_food (params_id r) (delete "owner" (strip_fields m)) s.
Proof.
  intros Hauth (b & Hb & Hfood)%partial_payload_body Hf Ho Hfind Hupd.
  destruct r as [pid ? tok usr]. simpl in *. subst.
  pose proof (strip_fields_food _ _ Hfood) as Hget.
  enter. run; [done|].
  match goal with H : bool_decide _ = false |- _ =>
    apply bool_decide_eq_false in H; done end.
Qed.

Lemma sanitized_owner_irrelevant m o :
  delete "owner" (strip_fields (<["owner" := o]> m))
  = delete "owner" (strip_fields m).
Proof.
  apply map_eq. intros k. destruct (decide (k = "owner")) as [->|Hk].
  - by rewrite !lookup_delete_eq.
  - rewrite !lookup_delete_ne, !strip_fields_lookup by done.
    by rewrite lookup_insert_ne.
Qed.

(** X13. The [owner] a client puts into the payload of POST or PATCH has no
    influence at all: with any value under that key the cycle writes the
    same response, hands the same error to [next], issues the same store
    calls and leaves the same store as without it. *)
Theorem owner_key_irrelevant flt v r s b m o :
  body r = JObj b ->
  b !! "food" = Some (JObj m) ->
  v = POST_foods \/ v = PATCH_foods_id ->
  let r' := with_body r (JObj (<["food" := JObj (<["owner" := o]> m)]> b)) in
  let w := serve flt v r s in
  let w' := serve flt v r' s in
  res w' = res w /\ forwarded w' = forwarded w /\ db w' = db w
  /\ calls w' = calls w /\ unhandled w' = unhandled w.
Proof.
  intros Hb Hfood Hv r'. subst r'.
  destruct r as [pid ? tok usr]. simpl in *. subst.
  unfold with_body. simpl.
  assert (Hauth : authenticate s
            {| params_id := pid;
               body := JObj (<["food" := JObj (<["owner" := o]> m)]> b);
               token := tok; user := usr |}
          = authenticate s
            {| params_id := pid; body := JObj b; token := tok; user := usr |})
    by reflexivity.
  pose proof (strip_fields_food _ _ Hfood) as Hget.
  assert (Hget' : strip_fields (<["food" := JObj (<["owner" := o]> m)]> b) !! "food"
                  = Some (JObj (strip_fields (<["owner" := o]> m))))
    by (apply strip_fields_food, lookup_insert_eq).
  destruct (authenticate s
              {| params_id := pid; body := JObj b; token := tok; user := usr |})
    eqn:Hauth0.
  all: destruct (foods s !! pid) as [g|] eqn:Hg.
  all: destruct Hv as [-> | ->]; enter.
  all: repeat (simpl;
               rewrite ?strip_blanks_obj, ?lookup_insert_eq,
                 ?sanitized_owner_irrelevant, ?insert_insert_eq;
               simpl; try step).
  all: done.
Qed.

Lemma owner_key_irrelevant_witness :
  let r := client "f1" edit (Some "ta") in
  let r' := with_body r
              (JObj (<["food" := JObj (<["owner" := JStr "bob"]>
                                         (<["title" := JStr blank]>
                                            {["text" := JStr "ok"]}))]>
                       {["food" := JObj (<["title" := JStr blank]>
                                           {["text" := JStr "ok"]})]})) in
  let w := serve healthy PATCH_foods_id r kitchen in
  let w' := serve healthy PATCH_foods_id r' kitchen in
  res w' = res w /\ forwarded w' = forwarded w /\ db w' = db w
  /\ calls w' = calls w /\ unhandled w' = unhandled w.
Proof.
  apply (owner_key_irrelevant healthy PATCH_foods_id (client "f1" edit (Some "ta"))
           kitchen
           {["food" := JObj (<["title" := JStr blank]> {["text" := JStr "ok"]})]}
           (<["title" := JStr blank]> {["text" := JStr "ok"]}) (JStr "bob"));
    [reflexivity | vm_compute; reflexivity | right; reflexivity].
Defined.

(** X14. What POST stored, SHOW gives back: after a served create of a
    mapping, [GET /foods/:id] for the new id, when the store serves the
    lookup, answers 200 with a record that has that id, the creator's user
    record as its populated owner, and every other field as it was sent. *)
Theorem create_then_show flt1 flt2 r r' s u m :
  authenticate s r = Some u ->
  partial_payload r = Some m ->
  flt1 (CallCreate (JObj (<["owner" := JStr u]> m))) = None ->
  params_id r' = new_id s ->
  flt2 (CallFindById (new_id s)) = None ->
  let w1 := serve flt1 POST_foods r s in
  let w2 := serve flt2 GET_foods_id r' (db w1) in
  exists food,
    res w2 = Some {| status := 200; json := Some (JObj {["food" := JObj food]}) |}
    /\ food !! "id" = Some (JStr (new_id s))
    /\ food !! "owner" = Some (default JNull (users s !! u))
    /\ (forall k, k <> "owner" -> k <> "id" -> food !! k = m !! k).
Proof.
  intros Hauth Hpay Hcreate Hid Hfind w1 w2. subst w1 w2.
  rewrite (create_run _ _ _ _ _ Hauth Hpay Hcreate).
  destruct r' as [pid' b' tok' usr']. simpl in Hid. subst pid'.
  enter. run. unfold populate_doc, toObject. simpl.
  rewrite lookup_insert_eq. simpl.
  eexists. split; [reflexivity|]. split; [apply lookup_insert_eq|]. split.
  - rewrite lookup_insert_ne by done. apply lookup_insert_eq.
  - intros k Ho Hi. by rewrite !lookup_insert_ne.
Qed.

Lemma create_then_show_witness :
  let r := client blank edit (Some "ta") in
  let r' := client (new_id kitchen) JUndefined None in
  let m : gmap string jsval := <["title" := JStr blank]> {["text" := JStr "ok"]} in
  let w1 := serve healthy POST_foods r kitchen in
  let w2 := serve healthy GET_foods_id r' (db w1) in
  exists food,
    res w2 = Some {| status := 200; json := Some (JObj {["food" := JObj food]}) |}
    /\ food !! "id" = Some (JStr (new_id kitchen))
    /\ food !! "owner" = Some (default JNull (users kitchen !! "alice"))
    /\ (forall k, k <> "owner" -> k <> "id" -> food !! k = m !! k).
Proof.
  apply (create_then_show healthy healthy (client blank edit (Some "ta"))
           (client (new_id kitchen) JUndefined None) kitchen "alice");
    vm_compute; reflexivity.
Defined.

(** X15. A record created and then deleted by the same user, both calls
    served by the store, leaves the collection of records, the users and the
    tokens exactly as they were before the create. *)
Theorem create_then_destroy flt1 flt2 r r' s u m :
  authenticate s r = Some u ->
  partial_payload r = Some m ->
  flt1 (CallCreate (JObj (<["owner" := JStr u]> m))) = None ->
  token r' = token r ->
  params_id r' = new_id s ->
  flt2 (CallFindById (new_id s)) = None ->
  flt2 (CallDeleteOne (new_id s)) = None ->
  let w1 := serve flt1 POST_foods r s in
  let w2 := serve flt2 DELETE_foods_id r' (db w1) in
  res w2 = Some {| status := 204; json := None |}
  /\ foods (db w2) = foods s
  /\ users (db w2) = users s
  /\ tokens (db w2) = tokens s.
Proof.
  intros Hauth Hpay Hcreate Htok Hid Hfind Hdel w1 w2. subst w1 w2.
  rewrite (create_run _ _ _ _ _ Hauth Hpay Hcreate).
  destruct (new_id_fresh s) as [Hnew _].
  destruct r' as [pid' b' tok' usr'], r as [pid b tok usr]. simpl in *. subst.
  assert (Hauth' : authenticate (insert_food (new_id s) (<["owner" := JStr u]> m) s)
            {| params_id := new_id s; body := b'; token := tok; user := usr' |}
          = Some u) by exact Hauth.
  enter. run.
  - by rewrite delete_insert_id.
  - match goal with H : bool_decide _ = false |- _ =>
      apply bool_decide_eq_false in H; done end.
Qed.

Lemma create_then_destroy_witness :
  let r := client blank edit (Some "ta") in
  let r' := client (new_id kitchen) JUndefined (Some "ta") in
  let w1 := serve healthy POST_foods r kitchen in
  let w2 := serve healthy DELETE_foods_id r' (db w1) in
  res w2 = Some {| status := 204; json := None |}
  /\ foods (db w2) = foods kitchen
  /\ users (db w2) = users kitchen
  /\ tokens (db w2) = tokens kitchen.
Proof.
  apply (create_then_destroy healthy healthy (client blank edit (Some "ta"))
           (client (new_id kitchen) JUndefined (Some "ta")) kitchen "alice"
           (<["title" := JStr blank]> {["text" := JStr "ok"]}));
    vm_compute; reflexivity.
Defined.

(** X16. PATCH is idempotent: for the owner of a stored record, with the
    lookup and the update served both times, the same request a second time
    answers 204 again and leaves the store exactly as the first left it. *)
Theorem update_idempotent flt1 flt2 r s u f m :
  authenticate s r = Some u ->
  partial_payload r = Some m ->
  foods s !! params_id r = Some f ->
  f !! "owner" = Some (JStr u) ->
  (forall c, c = CallFindById (params_id r)
             \/ c = CallUpdateOne (params_id r)
                      (JObj (delete "owner" (strip_fields m))) ->
             flt1 c = None /\ flt2 c = None) ->
  let w1 := serve flt1 PATCH_foods_id r s in
  let w2 := serve flt2 PATCH_foods_id r (db w1) in
  res w2 = Some {| status := 204; json := None |}
  /\ db w2 = db w1.
Proof.
  intros Hauth Hpay Hf Ho Hflt w1 w2. subst w1 w2.
  destruct (Hflt _ (or_introl eq_refl)) as [Hfind1 Hfind2].
  destruct (Hflt _ (or_intror eq_refl)) as [Hupd1 Hupd2].
  destruct (update_run _ _ _ _ _ _ Hauth Hpay Hf Ho Hfind1 Hupd1) as [_ ->].
  assert (Hf' : foods (merge_food (params_id r) (delete "owner" (strip_fields m)) s)
                  !! params_id r
                = Some (delete "owner" (strip_fields m) ∪ f)).
  { simpl. by rewrite lookup_alter_eq, Hf. }
  assert (Ho' : (delete "owner" (strip_fields m) ∪ f) !! "owner" = Some (JStr u)).
  { rewrite lookup_union_r; [done|]. apply lookup_delete_eq. }
  destruct (update_run flt2 r
              (merge_food (params_id r) (delete "owner" (strip_fields m)) s)
              u _ m Hauth Hpay Hf' Ho' Hfind2 Hupd2) as [-> ->].
  split; [done|]. unfold merge_food. simpl. f_equal.
  apply map_eq. intros k. destruct (decide (k = params_id r)) as [->|Hk].
  - rewrite !lookup_alter_eq, Hf. simpl. f_equal.
    apply map_eq. intros j. rewrite !lookup_union.
    destruct (delete "owner" (strip_fields m) !! j), (f !! j); reflexivity.
  - by rewrite !lookup_alter_ne.
Qed.

Lemma update_idempotent_witness :
  let r := client "f1" grab (Some "ta") in
  let w1 := serve healthy PATCH_foods_id r kitchen in
  let w2 := serve healthy PATCH_foods_id r (db w1) in
  res w2 = Some {| status := 204; json := None |}
  /\ db w2 = db w1.
Proof.
  apply (update_idempotent healthy healthy (client "f1" grab (Some "ta")) kitchen
           "alice" soup
           (<["title" := JStr blank]>
              (<["owner" := JStr "bob"]> {["text" := JStr "ok"]})));
    try (vm_compute; reflexivity).
  intros c _. split; reflexivity.
Defined.

(** X17. A PATCH by the owner whose payload holds nothing but blank fields
    and an [owner] key (the empty payload included) still looks the record
    up, still issues an update, with the empty mapping, still answers 204,
    and changes no record. *)
Theorem blank_update_changes_nothing flt r s u f m :
  authenticate s r = Some u ->
  partial_payload r = Some m ->
  foods s !! params_id r = Some f ->
  f !! "owner" = Some (JStr u) ->
  (forall k v, m !! k = Some v -> k = "owner" \/ v = JStr blank) ->
  flt (CallFindById (params_id r)) = None ->
  flt (CallUpdateOne (params_id r) (JObj ∅)) = None ->
  let w := serve flt PATCH_foods_id r s in
  res w = Some {| status := 204; json := None |}
  /\ foods (db w) = foods s
  /\ calls w = [CallFindById (params_id r); CallUpdateOne (params_id r) (JObj ∅)].
Proof.
  intros Hauth Hpay Hf Ho Hblank Hfind Hupd w. subst w.
  assert (Hp : delete "owner" (strip_fields m) = ∅).
  { apply map_eq. intros k. rewrite lookup_empty.
    destruct (decide (k = "owner")) as [->|Hk]; [apply lookup_delete_eq|].
    rewrite lookup_delete_ne, strip_fields_lookup by done.
    destruct (m !! k) as [v|] eqn:Hm; [|done].
    destruct (Hblank _ _ Hm) as [?| ->]; [done|reflexivity]. }
  destruct (partial_payload_body _ _ Hpay) as (b & Hb & Hfood).
  destruct r as [pid ? tok usr]. simpl in *. subst.
  pose proof (strip_fields_food _ _ Hfood) as Hget.
  enter.
  repeat (simpl; rewrite ?strip_blanks_obj, ?lookup_insert_eq, ?Hp; simpl; try step).
  - repeat split; try done.
    apply map_eq. intros k. destruct (decide (k = pid)) as [->|Hk].
    + rewrite lookup_alter_eq, Hf. simpl. f_equal. apply (left_id_L ∅ (∪)).
    + by rewrite lookup_alter_ne.
  - match goal with H : bool_decide _ = false |- _ =>
      apply bool_decide_eq_false in H; done end.
Qed.

Lemma blank_update_changes_nothing_witness :
  let m : gmap string jsval := {["title" := JStr blank]} in
  let r := client "f1" (JObj {["food" := JObj m]}) (Some "ta") in
  let w := serve healthy PATCH_foods_id r kitchen in
  res w = Some {| status := 204; json := None |}
  /\ foods (db w) = foods kitchen
  /\ calls w = [CallFindById "f1"; CallUpdateOne "f1" (JObj ∅)].
Proof.
  intros m r.
  apply (blank_update_changes_nothing healthy r kitchen "alice" soup m);
    try (vm_compute; reflexivity).
  intros k v Hk. right.
  apply lookup_singleton_Some in Hk as [_ <-]. reflexivity.
Defined.

(** ** Who can write *)

(** X18. On every route and for every request: an update or delete call is
    issued only for the requested id, only after the lookup of that id was
    served first, and only when the caller is authenticated and is the owner
    of the record stored under it. *)
Theorem write_needs_owner flt v r s id :
  (CallDeleteOne id ∈ calls (serve flt v r s)
   \/ exists p, CallUpdateOne id p ∈ calls (serve flt v r s)) ->
  id = params_id r
  /\ head (calls (serve flt v r s)) = Some (CallFindById id)
  /\ flt (CallFindById id) = None
  /\ exists u f,
      authenticate s r = Some u
      /\ foods s !! id = Some f
      /\ f !! "owner" = Some (JStr u).
Proof.
  destruct r as [pid b tok usr]. simpl.
  destruct (foods s !! pid) as [g|] eqn:Hg.
  all: destruct v; enter; run.
  all: intros [Hin | [p Hin]]; try in_log Hin.
  all: repeat (apply elem_of_cons in Hin as [Hin|Hin]; [simplify_eq|]);
    try (by apply elem_of_nil in Hin).
  all: match goal with H : bool_decide _ = true |- _ =>
         apply bool_decide_eq_true in H; subst end.
  all: repeat split; try done; eauto.
Qed.

Lemma write_needs_owner_witness :
  let r := client "f1" edit (Some "ta") in
  "f1" = params_id r
  /\ head (calls (serve healthy PATCH_foods_id r kitchen))
     = Some (CallFindById "f1")
  /\ healthy (CallFindById "f1") = None
  /\ exists u f,
      authenticate kitchen r = Some u
      /\ foods kitchen !! "f1" = Some f
      /\ f !! "owner" = Some (JStr u).
Proof.
  intros r.
  apply (write_needs_owner healthy PATCH_foods_id r kitchen "f1").
  right. exists (JObj {["text" := JStr "ok"]}).
  apply list_elem_of_In. vm_compute. right. left. reflexivity.
Defined.

(** X19. A create call is issued on [POST /foods] only, alone, only for an
    authenticated caller, and whenever the payload it carries is a mapping
    its [owner] is that caller. *)
Theorem create_call_has_owner flt v r s p :
  CallCreate p ∈ calls (serve flt v r s) ->
  v = POST_foods
  /\ calls (serve flt v r s) = [CallCreate p]
  /\ exists u,
      authenticate s r = Some u
      /\ (forall m, p = JObj m -> m !! "owner" = Some (JStr u)).
Proof.
  destruct r as [pid b tok usr]. simpl.
  destruct v; enter; run.
  all: intros Hin; try in_log Hin.
  all: repeat (apply elem_of_cons in Hin as [Hin|Hin]; [simplify_eq|]);
    try (by apply elem_of_nil in Hin).
  all: split; [done|]; split; [done|]; eexists; split; [done|].
  all: intros m' ?; simplify_eq.
  all: try match goal with
    | H1 : js_get ?b _ = Normal ?a, H2 : js_set ?a _ _ = Normal ?a0,
      H3 : js_set ?b _ ?a0 = Normal ?a1, H4 : js_get ?a1 _ = Normal (JObj _) |- _ =>
        destruct (owner_assigned _ _ _ _ _ _ H1 H2 H3 H4) as (m0 & _ & ->)
    end.
  all: apply lookup_insert_eq.
Qed.

Lemma create_call_has_owner_witness :
  let r := client blank grab (Some "ta") in
  let p := JObj (<["title" := JStr blank]>
                   (<["owner" := JStr "alice"]> {["text" := JStr "ok"]})) in
  POST_foods = POST_foods
  /\ calls (serve healthy POST_foods r kitchen) = [CallCreate p]
  /\ exists u,
      authenticate kitchen r = Some u
      /\ (forall m, p = JObj m -> m !! "owner" = Some (JStr u)).
Proof.
  intros r p.
  apply (create_call_has_owner healthy POST_foods r kitchen p).
  apply list_elem_of_In. vm_compute. left. reflexivity.
Defined.

(** One request of anybody but the owner leaves a record as it is. *)
Lemma stranger_step flt v r s id f u :
  foods s !! id = Some f ->
  f !! "owner" = Some (JStr u) ->
  authenticate s r <> Some u ->
  foods (db (serve flt v r s)) !! id = Some f
  /\ tokens (db (serve flt v r s)) = tokens s.
Proof.
  intros Hf Ho Hauth. destruct (new_id_fresh s) as [Hnew _].
  assert (Hid : new_id s <> id) by congruence.
  destruct r as [pid b tok usr]. simpl in *.
  destruct (decide (pid = id)) as [->|Hne].
  - destruct v; enter; run; try done.
    all: try (rewrite lookup_insert_ne by done; done).
    all: match goal with H : bool_decide _ = true |- _ =>
           apply bool_decide_eq_true in H; simplify_eq end.
  - destruct (foods s !! pid) as [g|] eqn:Hg.
    all: destruct v; enter; run; try done.
    all: try (rewrite lookup_insert_ne by done; done).
    all: try (rewrite lookup_alter_ne by done; done).
    all: try (rewrite lookup_delete_ne by done; done).
Qed.

(** X20. Through every sequence of requests to the five routes, with any
    bodies and whatever the store does with their calls, a record stays
    stored with every field as it was as long as none of the requests is
    authenticated as its owner. *)
Theorem only_owner_changes_record cs s id f u :
  foods s !! id = Some f ->
  f !! "owner" = Some (JStr u) ->
  (forall c, c ∈ cs -> authenticate s (call_req c) <> Some u) ->
  foods (serve_all cs s) !! id = Some f.
Proof.
  revert s. induction cs as [|c cs IH]; intros s Hf Ho Hcs; [done|].
  simpl.
  destruct (stranger_step (call_faults c) (call_verb c) (call_req c) s id f u)
    as [Hf' Htok]; [done|done|apply Hcs, elem_of_cons; by left|].
  apply IH; [done|done|].
  intros c' Hc'. unfold authenticate, serve_call. rewrite Htok.
  apply Hcs, elem_of_cons. by right.
Qed.

Lemma only_owner_changes_record_witness :
  foods kitchen !! "f1" = Some soup
  /\ foods (serve_all raids kitchen) !! "f1" = Some soup.
Proof.
  split; [vm_compute; reflexivity|].
  apply (only_owner_changes_record raids kitchen "f1" soup "alice");
    [vm_compute; reflexivity | vm_compute; reflexivity |].
  intros c Hc.
  repeat (apply elem_of_cons in Hc as [->|Hc];
          [intros H; vm_compute in H; discriminate H|]).
  by apply elem_of_nil in Hc.
Defined.
